(** * The migration state engine of [migrations.py]

    A shallow embedding of the revision parser, the revision catalog, the
    state store and the migration engine, together with the two commands of
    the command line whose behaviour the engine's contract refers to
    ([migrate] and [log]).

    Conventions.
    - A Python [str] is a list of code points ([N]); [py "..."] writes a
      literal.  Python's [\s] and [.] are defined on code points, so the
      embedding keeps them.
    - A Python [int] is a [Z].
    - A [dict] is an association list in insertion order, as [sorted] is
      stable and therefore sees that order.
    - A [Path] is kept by its text ([str(path)]); joining reads and writes
      that text as [pathlib] does on a POSIX system.
    - The file system is a finite map from paths to contents; the outcome of
      every fallible system call is read from an environment [Env], and every
      call the program makes is appended to a trace.
    - The database connection is an interface ([Connection]): the engine
      only calls [execute], [commit] and [rollback] on it. *)

From Stdlib Require Import ZArith NArith List String Ascii DecimalString Lia.
From Stdlib Require Import DecimalZ.
From Stdlib Require Import Permutation Sorted.
From stdpp Require Import gmap list sorting.

Local Open Scope Z_scope.

(** ** Strings *)

Abbreviation str := (list N).

Definition chr (a : ascii) : N := N_of_ascii a.
Arguments chr a%_char_scope.

Definition py (s : string) : str := map N_of_ascii (list_ascii_of_string s).
Arguments py s%_string_scope.

(** The line feed, which Python writes [\n]. *)
Definition LF : N := 10%N.

(** The double quote. *)
Definition QUOTE : N := 34%N.

(** [str(n)] and [f"{n}"] for an [int]: decimal digits, [-] for a negative
    number. *)
Definition str_of_int (z : Z) : str := py (NilZero.string_of_int (Z.to_int z)).

(** [int(s)] on a string of ASCII digits (the only strings the program gives
    it: the capture of [[0-9]+]). *)
Definition int (s : str) : Z :=
  fold_left (fun acc c => 10 * acc + (Z.of_N c - 48)) s 0.

(** [_PyUnicode_IsWhitespace]: the code points Python's [\s] matches in a
    [str] pattern. *)
Definition isspace (c : N) : bool :=
  ((9 <=? c) && (c <=? 13) || (28 <=? c) && (c <=? 32) || (c =? 133)
   || (c =? 160) || (c =? 5760) || (8192 <=? c) && (c <=? 8202)
   || (c =? 8232) || (c =? 8233) || (c =? 8239) || (c =? 8287)
   || (c =? 12288))%N.

(** [re.sub(r"\s", "_", s)]. *)
Definition sub_space_underscore (s : str) : str :=
  map (fun c => if isspace c then chr "_" else c) s.

(** [s.replace("_", " ")]. *)
Definition replace_underscore_space (s : str) : str :=
  map (fun c => if (c =? chr "_")%N then chr " " else c) s.

(** [f"{z:>03}"]: the decimal text, right-aligned in a field of width 3
    that is filled with [0] on the left. *)
Definition format_right_03 (z : Z) : str :=
  let digits := str_of_int z in
  replicate (3 - length digits)%nat (chr "0") ++ digits.

(** *** Paths, as [pathlib.PurePosixPath] reads and joins them

    A path is a root ([/], [//] or none) and its parts.  Reading a text
    splits it at the slashes and drops the empty parts and the parts [.]
    (a part [..] stays); exactly two leading slashes are the root [//], any
    other number of them the root [/]. *)

Definition SLASH : N := chr "/".

(** [s.split("/")] *)
Fixpoint split_slash (s : str) : list str :=
  match s with
  | [] => [[]]
  | c :: s' =>
      if (c =? SLASH)%N then [] :: split_slash s'
      else
        match split_slash s' with
        | part :: parts => (c :: part) :: parts
        | [] => [[c]]
        end
  end.

(** [s.lstrip("/")] *)
Fixpoint lstrip_slash (s : str) : str :=
  match s with
  | c :: s' => if (c =? SLASH)%N then lstrip_slash s' else s
  | [] => []
  end.

Record PurePath : Type := {
  path_root : str;
  path_parts : list str
}.

Definition is_part (part : str) : bool :=
  negb (bool_decide (part = [])) && negb (bool_decide (part = py ".")).

(** [PurePosixPath(s)] *)
Definition parse_path (s : str) : PurePath :=
  let rest := lstrip_slash s in
  let slashes := (length s - length rest)%nat in
  {| path_root :=
       if (slashes =? 0)%nat then []
       else if (slashes =? 2)%nat then py "//" else py "/";
     path_parts := List.filter is_part (split_slash rest) |}.

(** [p / s]: a text with a root replaces [p]. *)
Definition truediv (p : PurePath) (s : str) : PurePath :=
  let q := parse_path s in
  match path_root q with
  | [] => {| path_root := path_root p;
             path_parts := path_parts p ++ path_parts q |}
  | _ => q
  end.

(** ["/".join(parts)] *)
Fixpoint join_slash (parts : list str) : str :=
  match parts with
  | [] => []
  | [part] => part
  | part :: rest => part ++ SLASH :: join_slash rest
  end.

(** [str(p)] *)
Definition path_str (p : PurePath) : str :=
  match path_root p, path_parts p with
  | [], [] => py "."
  | root, parts => root ++ join_slash parts
  end.

(** [str(Path(dir) / name)]: paths are kept by their text. *)
Definition path_join (dir name : str) : str :=
  path_str (truediv (parse_path dir) name).

(** [name] ends with [suffix]. *)
Definition endswith (name suffix : str) : bool :=
  bool_decide (drop (length name - length suffix)%nat name = suffix).

(** ** Regular expressions

    The fragment of [re] that [REVISION_FILE] uses, with Python's
    backtracking order: a greedy [+] first tries to consume more. *)

Inductive charset : Type :=
| Lit (c : N)                (* a literal character *)
| Dot                        (* [.]: anything but a line feed *)
| Range (lo hi : N).         (* [[lo-hi]] *)

Definition charset_ok (k : charset) (c : N) : bool :=
  match k with
  | Lit x => (c =? x)%N
  | Dot => negb (c =? LF)%N
  | Range lo hi => ((lo <=? c) && (c <=? hi))%N
  end.

Inductive regex : Type :=
| One (k : charset)
| Many1 (k : charset)                      (* [k+], greedy *)
| Cat (r1 r2 : regex)
| Group (name : string) (r : regex).       (* [(?P<name>r)] *)

Declare Scope regex_scope.
Delimit Scope regex_scope with regex.
Notation "r1 ⋅ r2" := (Cat r1 r2) (at level 41, right associativity) : regex_scope.

(** What the groups of a match captured, most recent first. *)
Abbreviation groups := (list (string * str)).

(** [many1 ok k s]: consume one or more characters satisfying [ok] from [s],
    the longest run first, and continue with [k] on the rest. *)
Fixpoint many1 {R : Type} (ok : N -> bool) (k : str -> option R)
    (s : str) : option R :=
  match s with
  | [] => None
  | c :: s' =>
      if ok c then
        match many1 ok k s' with
        | Some r => Some r
        | None => k s'
        end
      else None
  end.

Fixpoint run {R : Type} (r : regex) (s : str) (g : groups)
    (k : str -> groups -> option R) : option R :=
  match r with
  | One c =>
      match s with
      | x :: s' => if charset_ok c x then k s' g else None
      | [] => None
      end
  | Many1 c => many1 (charset_ok c) (fun s' => k s' g) s
  | Cat r1 r2 => run r1 s g (fun s' g' => run r2 s' g' k)
  | Group name r1 =>
      run r1 s g
        (fun s' g' => k s' ((name, take (length s - length s') s) :: g'))
  end.

(** [pattern.match(s)]: anchored at the start of [s], not at its end. *)
Definition re_match (r : regex) (s : str) : option groups :=
  run r s [] (fun _ g => Some g).

(** [match.group(name)].  Every group of [REVISION_FILE] takes part in every
    match, so the default is never returned for it. *)
Definition group (m : groups) (name : string) : str :=
  match find (fun p => String.eqb (fst p) name) m with
  | Some p => snd p
  | None => []
  end.

(** [(?P<kind>V)(?P<version>[0-9]+)__(?P<description>.+).sql] *)
Definition REVISION_FILE : regex :=
  (Group "kind" (One (Lit (chr "V")))
   ⋅ Group "version" (Many1 (Range (chr "0") (chr "9")))
   ⋅ One (Lit (chr "_")) ⋅ One (Lit (chr "_"))
   ⋅ Group "description" (Many1 Dot)
   ⋅ One Dot ⋅ One (Lit (chr "s")) ⋅ One (Lit (chr "q")) ⋅ One (Lit (chr "l")))%regex.

Definition CONNECTION_URI : str := py "db.sqlite".

(** ** Revisions *)

Module Revision.

Record t : Type := make {
  kind : str;
  version : Z;
  description : str;
  file : str
}.

Definition from_match (m : groups) (file : str) : t :=
  {| kind := group m "kind";
     version := int (group m "version");
     description := group m "description";
     file := file |}.

End Revision.

(** The state record of [revisions.json]. *)
Module Revisions.

Record t : Type := make {
  version : Z;
  database_uri : str
}.

End Revisions.

(** ** JSON, as [json.dump] writes the state record

    [ensure_ascii] is on by default: a character outside the printable ASCII
    range is written as a [\uXXXX] escape, a character beyond the basic plane
    as a surrogate pair. *)

Definition hex_digit (n : N) : N :=
  (if n <? 10 then chr "0" + n else chr "a" + (n - 10))%N.

Definition u_escape (n : N) : str :=
  (py "\u" ++ [hex_digit (n / 4096 mod 16); hex_digit (n / 256 mod 16);
               hex_digit (n / 16 mod 16); hex_digit (n mod 16)])%N.

Definition json_escape (c : N) : str :=
  (if c =? QUOTE then [chr "\"; QUOTE]
   else if c =? chr "\" then py "\\"
   else if c =? 8 then py "\b"
   else if c =? 9 then py "\t"
   else if c =? 10 then py "\n"
   else if c =? 12 then py "\f"
   else if c =? 13 then py "\r"
   else if (32 <=? c) && (c <=? 126) then [c]
   else if c <? 65536 then u_escape c
   else u_escape (55296 + (c - 65536) / 1024)
        ++ u_escape (56320 + (c - 65536) mod 1024))%N.

Definition json_string (s : str) : str :=
  [QUOTE] ++ concat (map json_escape s) ++ [QUOTE].

Definition json_dumps (data : Revisions.t) : str :=
  py "{" ++ json_string (py "version") ++ py ": "
  ++ str_of_int (Revisions.version data)
  ++ py ", " ++ json_string (py "database_uri") ++ py ": "
  ++ json_string (Revisions.database_uri data) ++ py "}".

(** ** Dictionaries keyed by [int], in insertion order *)

Module Dict.
Section dict.
Context {V : Type}.

(** [d[k] = v]: a key that is present keeps its place. *)
Fixpoint set (k : Z) (v : V) (d : list (Z * V)) : list (Z * V) :=
  match d with
  | [] => [(k, v)]
  | (k', v') :: d' => if k' =? k then (k', v) :: d' else (k', v') :: set k v d'
  end.

(** [k in d] *)
Definition contains (k : Z) (d : list (Z * V)) : bool :=
  existsb (fun p => fst p =? k) d.

(** [d.values()] *)
Definition values (d : list (Z * V)) : list V := map snd d.

End dict.
End Dict.

(** [sorted(l, key=key)]: a stable sort, ascending in [key]. *)
Section sorted.
Context {A : Type} (key : A -> Z).

Fixpoint insert_sorted (x : A) (l : list A) : list A :=
  match l with
  | [] => [x]
  | y :: l' => if key x <=? key y then x :: l else y :: insert_sorted x l'
  end.

Definition sorted (l : list A) : list A := fold_right insert_sorted [] l.

End sorted.

(** ** The world outside the engine *)

(** The calls the program makes on the file system, the database connection
    and the terminal. *)
Inductive event : Type :=
| EvReadText (path : str)                (* [path.read_text("utf-8")] *)
| EvOpen (path : str)                    (* [open(path, "w")] *)
| EvWrite (path : str) (data : str)      (* [fp.write(data)], [json.dump(_, fp)] *)
| EvReplace (src dst : str)              (* [os.replace(src, dst)] *)
| EvExecute (sql : str)                  (* [connection.execute(sql)] *)
| EvCommit                               (* [connection.commit()] *)
| EvRollback                             (* [connection.rollback()] *)
| EvEcho (message : str).                (* [click.echo(message)] *)

(** The exceptions, by the call that raised them.  [OSError call] stands
    for what a failing [open], write or [os.replace] raises: an [OSError],
    or, for a text that cannot be encoded or holds a NUL, a
    [UnicodeEncodeError] or a [ValueError]. *)
Inductive error : Type :=
| FileNotFoundError (path : str)
| OSError (call : event)
| SqliteError (call : event).

(** What the program reads from its environment during one command: the
    random identifier, the clock, and which writes to the disk fail. *)
Record Env : Type := {
  uuid4 : str;                            (* [str(uuid.uuid4())] *)
  utcnow : str;                           (* [str(datetime.datetime.utcnow())] *)
  open_fails : str -> bool;
  (* [Some n]: the write fails once [n] characters have reached the file *)
  write_fails : str -> str -> option nat;
  replace_fails : str -> str -> bool
}.

(** [sqlite3.Connection], as far as the engine uses it.  [execute] and
    [commit] may raise ([None]). *)
Class Connection (C : Type) : Type := {
  execute : str -> C -> option C;
  commit : C -> option C;
  rollback : C -> C
}.

Record World (C : Type) : Type := {
  files : gmap str str;
  conn : C;
  trace : list event
}.
Arguments files {C} _.
Arguments conn {C} _.
Arguments trace {C} _.

(** ** Computations that change a state and may raise *)

Inductive result (A : Type) : Type :=
| Ok (a : A)
| Raise (e : error).
Arguments Ok {A} a.
Arguments Raise {A} e.

Definition M (S A : Type) : Type := S -> result A * S.

#[global] Instance M_ret {S : Type} : MRet (M S) := fun A a s => (Ok a, s).

#[global] Instance M_bind {S : Type} : MBind (M S) := fun A B f c s =>
  match c s with
  | (Ok a, s') => f a s'
  | (Raise e, s') => (Raise e, s')
  end.

Definition raise {S A : Type} (e : error) : M S A := fun s => (Raise e, s).
Definition get {S : Type} : M S S := fun s => (Ok s, s).
Definition modify {S : Type} (f : S -> S) : M S unit := fun s => (Ok tt, f s).

(** The system calls, on a state that pairs the program's own object with
    the world.  Each call is recorded in the trace before its outcome is
    known. *)
Section calls.
Context {C : Type} `{!Connection C} {X : Type}.

Definition get_self : M (X * World C) X := fun s => (Ok (fst s), s).

Definition get_files : M (X * World C) (gmap str str) :=
  fun s => (Ok (files (snd s)), s).

Definition put_files (fs : gmap str str) : M (X * World C) unit :=
  modify (fun s => (fst s, {| files := fs; conn := conn (snd s);
                              trace := trace (snd s) |})).

Definition emit (ev : event) : M (X * World C) unit :=
  modify (fun s => (fst s, {| files := files (snd s); conn := conn (snd s);
                              trace := trace (snd s) ++ [ev] |})).

Definition get_conn : M (X * World C) C := fun s => (Ok (conn (snd s)), s).

Definition put_conn (c : C) : M (X * World C) unit :=
  modify (fun s => (fst s, {| files := files (snd s); conn := c;
                              trace := trace (snd s) |})).

(** [path.read_text("utf-8")] *)
Definition read_text (path : str) : M (X * World C) str :=
  emit (EvReadText path);;
  fs ← get_files;
  match fs !! path with
  | Some text => mret text
  | None => raise (FileNotFoundError path)
  end.

(** [open(path, "w")]: the file is created, or truncated. *)
Definition open_w (e : Env) (path : str) : M (X * World C) unit :=
  emit (EvOpen path);;
  if open_fails e path then raise (OSError (EvOpen path))
  else fs ← get_files; put_files (<[path := []]> fs).

(** Writing [data] to the file just opened at [path], up to the close of
    the file.  A write that fails leaves what it had written. *)
Definition write (e : Env) (path data : str) : M (X * World C) unit :=
  emit (EvWrite path data);;
  fs ← get_files;
  match write_fails e path data with
  | Some n =>
      put_files (<[path := take n data]> fs);;
      raise (OSError (EvWrite path data))
  | None => put_files (<[path := data]> fs)
  end.

(** [os.replace(src, dst)] *)
Definition os_replace (e : Env) (src dst : str) : M (X * World C) unit :=
  emit (EvReplace src dst);;
  fs ← get_files;
  if replace_fails e src dst then raise (OSError (EvReplace src dst))
  else
    match fs !! src with
    | Some text => put_files (<[dst := text]> (delete src fs))
    | None => raise (FileNotFoundError src)
    end.

(** [connection.execute(sql)] *)
Definition conn_execute (sql : str) : M (X * World C) unit :=
  emit (EvExecute sql);;
  c ← get_conn;
  match execute sql c with
  | Some c' => put_conn c'
  | None => raise (SqliteError (EvExecute sql))
  end.

(** [connection.commit()] *)
Definition conn_commit : M (X * World C) unit :=
  emit EvCommit;;
  c ← get_conn;
  match commit c with
  | Some c' => put_conn c'
  | None => raise (SqliteError EvCommit)
  end.

(** [connection.rollback()] *)
Definition conn_rollback : M (X * World C) unit :=
  emit EvRollback;;
  c ← get_conn;
  put_conn (rollback c).

(** [with connection: body].  Leaving the block commits; leaving it by an
    exception, or a commit that fails, rolls back and the exception goes on. *)
Definition with_connection {A : Type} (body : M (X * World C) A)
    : M (X * World C) A :=
  fun s =>
    match body s with
    | (Ok a, s') =>
        match conn_commit s' with
        | (Ok _, s'') => (Ok a, s'')
        | (Raise err, s'') => (conn_rollback;; raise err) s''
        end
    | (Raise err, s') => (conn_rollback;; raise err) s'
    end.

(** [click.echo(message)] *)
Definition echo (message : str) : M (X * World C) unit :=
  emit (EvEcho message).

End calls.

(** [click.style(text, fg="yellow")] and [click.style(text, bold=True)]:
    the ANSI code, the text, the reset code. *)
Definition ESC : N := 27%N.
Definition style_fg_yellow (text : str) : str :=
  [ESC] ++ py "[33m" ++ text ++ [ESC] ++ py "[0m".
Definition style_bold (text : str) : str :=
  [ESC] ++ py "[1m" ++ text ++ [ESC] ++ py "[0m".

(** ** The engine *)

Module Migrations.

Record t : Type := make {
  filename : str;
  migrations_path : str;
  root : str;
  revisions : list (Z * Revision.t);
  version : Z;
  database_uri : str
}.

Definition set_version (v : Z) (self : t) : t :=
  {| filename := filename self; migrations_path := migrations_path self;
     root := root self; revisions := revisions self;
     version := v; database_uri := database_uri self |}.

Definition dump (self : t) : Revisions.t :=
  {| Revisions.version := version self;
     Revisions.database_uri := database_uri self |}.

Definition is_next_revision_taken (self : t) : bool :=
  Dict.contains (version self + 1) (revisions self).

Definition ordered_revisions (self : t) : list Revision.t :=
  sorted Revision.version (Dict.values (revisions self)).

(** [root.glob("migrations/*.sql")], given the names in that directory in
    the order the scan yields them. *)
Definition glob_sql (entries : list str) : list str :=
  List.filter (fun name => endswith name (py ".sql")) entries.

Definition get_revisions (root : str) (entries : list str)
    : list (Z * Revision.t) :=
  fold_left
    (fun result name =>
       match re_match REVISION_FILE name with
       | Some m =>
           let file := path_join (path_join root (py "migrations")) name in
           let rev := Revision.from_match m file in
           Dict.set (Revision.version rev) rev result
       | None => result
       end)
    (glob_sql entries) [].

Section engine.
Context {C : Type} `{!Connection C}.

Definition save (e : Env) : M (t * World C) unit :=
  self ← get_self;
  let temp := filename self ++ py "." ++ uuid4 e ++ py ".tmp" in
  open_w e temp;;
  write e temp (json_dumps (dump self));;
  (* atomically move the file *)
  os_replace e temp (filename self).

Definition create_revision (e : Env) (reason : str) (kind : str)
    : M (t * World C) Revision.t :=
  self ← get_self;
  let cleaned := sub_space_underscore reason in
  let migrations_folder := path_join (root self) (migrations_path self) in
  let filename :=
    kind ++ str_of_int (version self + 1) ++ py "__" ++ cleaned ++ py ".sql" in
  let path := path_join migrations_folder filename in
  let stub :=
    py "-- Revises: V" ++ str_of_int (version self) ++ [LF]
    ++ py "-- Creation Date: " ++ utcnow e ++ py " UTC" ++ [LF]
    ++ py "-- Reason: " ++ reason ++ [LF; LF] in
  open_w e path;;
  write e path stub;;
  save e;;
  self ← get_self;
  mret {| Revision.kind := kind; Revision.description := reason;
          Revision.version := version self + 1; Revision.file := path |}.

(** The loop of [upgrade]; [successes] is its counter. *)
Fixpoint upgrade_loop (ordered : list Revision.t) (successes : Z)
    : M (t * World C) Z :=
  match ordered with
  | [] => mret successes
  | revision :: rest =>
      self ← get_self;
      if version self <? Revision.version revision then
        sql ← read_text (Revision.file revision);
        conn_execute sql;;
        upgrade_loop rest (successes + 1)
      else upgrade_loop rest successes
  end.

Definition upgrade : Env -> M (t * World C) Z := fun e =>
  self ← get_self;
  let ordered := ordered_revisions self in
  with_connection (
    successes ← upgrade_loop ordered 0;
    modify (fun s => (set_version (version (fst s) + successes) (fst s), snd s));;
    save e;;
    conn_commit;;
    mret successes).

(** The loop of [display]. *)
Fixpoint display_loop (ordered : list Revision.t) : M (t * World C) unit :=
  match ordered with
  | [] => mret tt
  | revision :: rest =>
      self ← get_self;
      if version self <? Revision.version revision then
        sql ← read_text (Revision.file revision);
        echo sql;;
        display_loop rest
      else display_loop rest
  end.

Definition display : M (t * World C) unit :=
  self ← get_self;
  let ordered := ordered_revisions self in
  display_loop ordered.

End engine.
End Migrations.

(** ** The commands [migrate] and [log]

    Each command builds its engine first ([Migrations()]); here the engine it
    built is the one the computation starts from. *)
Section commands.
Context {C : Type} `{!Connection C}.

Definition migrate (e : Env) (reason : str) : M (Migrations.t * World C) unit :=
  migrations ← get_self;
  if Migrations.is_next_revision_taken migrations then
    echo (py "an unapplied migration already exists for the next version, exiting");;
    echo (style_bold (py "hint: apply pending migrations with the `upgrade` command"))
  else
    revision ← Migrations.create_revision e reason (py "V");
    echo (py "Created revision V" ++ str_of_int (Revision.version revision)).

(** The sequence [log] walks through. *)
Definition log_revs (reverse : bool) (migrations : Migrations.t)
    : list Revision.t :=
  (* Revisions is oldest first already *)
  if negb reverse then rev (Migrations.ordered_revisions migrations)
  else Migrations.ordered_revisions migrations.

Definition log_line (rev : Revision.t) : str :=
  let as_yellow := style_fg_yellow (py "V" ++ format_right_03 (Revision.version rev)) in
  as_yellow ++ py " " ++ replace_underscore_space (Revision.description rev).

Fixpoint echo_all (lines : list str) : M (Migrations.t * World C) unit :=
  match lines with
  | [] => mret tt
  | line :: rest => echo line;; echo_all rest
  end.

Definition log (reverse : bool) : M (Migrations.t * World C) unit :=
  migrations ← get_self;
  echo_all (map log_line (log_revs reverse migrations)).

End commands.

(** ** Vocabulary of the statements *)

(** A revision is pending when its version exceeds the engine's. *)
Definition is_pending (self : Migrations.t) (r : Revision.t) : bool :=
  Migrations.version self <? Revision.version r.

Definition pending (self : Migrations.t) : list Revision.t :=
  List.filter (is_pending self) (Migrations.ordered_revisions self).

(** The text of a revision's script in the file system [fs]. *)
Definition script (fs : gmap str str) (r : Revision.t) : str :=
  default [] (fs !! Revision.file r).

(** The calls made to apply [revs]: each script is read, then executed. *)
Definition apply_events (fs : gmap str str) (revs : list Revision.t)
    : list event :=
  flat_map (fun r => [EvReadText (Revision.file r); EvExecute (script fs r)]) revs.

(** Executing scripts one after another on a connection. *)
Fixpoint execute_all {C : Type} `{!Connection C} (sqls : list str) (c : C)
    : option C :=
  match sqls with
  | [] => Some c
  | sql :: rest =>
      match execute sql c with
      | Some c' => execute_all rest c'
      | None => None
      end
  end.

(** The temporary file of [save], and what [save] writes. *)
Definition temp_of (e : Env) (self : Migrations.t) : str :=
  Migrations.filename self ++ py "." ++ uuid4 e ++ py ".tmp".

Definition state_json (self : Migrations.t) : str :=
  json_dumps (Migrations.dump self).

(** The three calls of a [save]. *)
Definition save_events (e : Env) (self : Migrations.t) : list event :=
  [EvOpen (temp_of e self); EvWrite (temp_of e self) (state_json self);
   EvReplace (temp_of e self) (Migrations.filename self)].

(** The disk lets a file be written at [path] with [data]. *)
Definition can_write (e : Env) (path data : str) : Prop :=
  open_fails e path = false /\ write_fails e path data = None.

(** The disk lets [save] go through for the engine [self]. *)
Definition can_save (e : Env) (self : Migrations.t) : Prop :=
  can_write e (temp_of e self) (state_json self)
  /\ replace_fails e (temp_of e self) (Migrations.filename self) = false.

(** A call that writes to the disk or commits the transaction. *)
Definition writes_or_commits (ev : event) : bool :=
  match ev with
  | EvOpen _ | EvWrite _ _ | EvReplace _ _ | EvCommit => true
  | _ => false
  end.

(** The path and the stub of the script [create_revision] writes. *)
Definition revision_filename (self : Migrations.t) (reason kind : str) : str :=
  kind ++ str_of_int (Migrations.version self + 1) ++ py "__"
  ++ map (fun c => if isspace c then chr "_" else c) reason ++ py ".sql".

Definition revision_path (self : Migrations.t) (reason kind : str) : str :=
  path_join (path_join (Migrations.root self) (Migrations.migrations_path self))
    (revision_filename self reason kind).

Definition revision_stub (e : Env) (self : Migrations.t) (reason : str) : str :=
  py "-- Revises: V" ++ str_of_int (Migrations.version self) ++ [LF]
  ++ py "-- Creation Date: " ++ utcnow e ++ py " UTC" ++ [LF]
  ++ py "-- Reason: " ++ reason ++ [LF; LF].

Definition is_digit (c : N) : bool := ((chr "0" <=? c) && (c <=? chr "9"))%N.

(** The names [REVISION_FILE] matches: [V], digits, two underscores, a
    text of at least one character, one more character, [sql], and
    anything after that; no line feed before [sql]. *)
Definition matched_shape (name : str) : Prop :=
  exists digits desc c rest,
    name = py "V" ++ digits ++ py "__" ++ desc ++ [c] ++ py "sql" ++ rest
    /\ digits <> [] /\ forallb is_digit digits = true
    /\ desc <> [] /\ (LF ∉ desc) /\ c <> LF.

(** Ascending and descending in the version. *)
Definition ascending (l : list Revision.t) : Prop :=
  StronglySorted (fun a b => Revision.version a <= Revision.version b) l.

Definition descending (l : list Revision.t) : Prop :=
  StronglySorted (fun a b => Revision.version b <= Revision.version a) l.

(** The calls made to display [revs]: each script is read, then echoed. *)
Definition display_events (fs : gmap str str) (revs : list Revision.t)
    : list event :=
  flat_map (fun r => [EvReadText (Revision.file r); EvEcho (script fs r)]) revs.

(** The engine a later command builds when the migrations directory holds
    [entries] and the state file is as [self] left it: the catalog is
    scanned anew, the rest is read back. *)
Definition with_catalog_of (entries : list str) (self : Migrations.t)
    : Migrations.t :=
  {| Migrations.filename := Migrations.filename self;
     Migrations.migrations_path := Migrations.migrations_path self;
     Migrations.root := Migrations.root self;
     Migrations.revisions :=
       Migrations.get_revisions (Migrations.root self) entries;
     Migrations.version := Migrations.version self;
     Migrations.database_uri := Migrations.database_uri self |}.

(** The path [get_revisions] gives to the file [name]. *)
Definition scanned_path (root name : str) : str :=
  path_join (path_join root (py "migrations")) name.

(** What holds of every catalog the scan builds from [entries]. *)
Definition scanned (root : str) (entries : list str)
    (d : list (Z * Revision.t)) : Prop :=
  NoDup (map fst d)
  /\ forall k r, (k, r) ∈ d ->
       k = Revision.version r
       /\ exists name m,
            name ∈ entries /\ endswith name (py ".sql") = true
            /\ re_match REVISION_FILE name = Some m
            /\ r = Revision.from_match m (scanned_path root name).

(** The digits of an unsigned decimal number, as [str] writes them. *)
Definition digits_of (u : Decimal.uint) : str :=
  py (NilEmpty.string_of_uint u).

(** Strictly ascending in the version. *)
Definition strictly_ascending (l : list Revision.t) : Prop :=
  StronglySorted (fun a b => Revision.version a < Revision.version b) l.

(** A call on the database connection. *)
Definition is_connection_call (ev : event) : bool :=
  match ev with
  | EvExecute _ | EvCommit | EvRollback => true
  | _ => false
  end.

(** The state after [connection.rollback()]. *)
Definition rolled_back {C : Type} `{!Connection C} {X : Type}
    (s : X * World C) : X * World C :=
  (fst s, {| files := files (snd s); conn := rollback (conn (snd s));
             trace := trace (snd s) ++ [EvRollback] |}).

(** The state after a [connection.commit()] that left the connection [c]. *)
Definition committed_as {C : Type} {X : Type} (c : C)
    (s : X * World C) : X * World C :=
  (fst s, {| files := files (snd s); conn := c;
             trace := trace (snd s) ++ [EvCommit] |}).

(** String literals and serialised texts stay folded in proofs. *)
Arguments py : simpl never.
Arguments chr : simpl never.
Arguments str_of_int : simpl never.
Arguments json_dumps : simpl never.
Arguments temp_of : simpl never.
Arguments state_json : simpl never.
Arguments sub_space_underscore : simpl never.
Arguments revision_path : simpl never.
Arguments path_join : simpl never.
Arguments scanned_path : simpl never.
Arguments revision_stub : simpl never.

Ltac unfold_monad :=
  unfold modify, raise, get, get_self, mbind, M_bind, mret, M_ret in *.

Ltac unfold_calls :=
  unfold Migrations.save, open_w, write, os_replace, read_text, conn_execute,
    conn_commit, conn_rollback, echo, emit, get_files, put_files, get_conn,
    put_conn in *;
  unfold_monad.

(** ** A connection and a repository to run the engine on *)

(** A connection that keeps the scripts it was given: those committed and
    those of the open transaction.  The script [RAISE] fails. *)
Record Journal : Type := {
  committed : list str;
  uncommitted : list str
}.

#[global] Instance Journal_connection : Connection Journal := {|
  execute sql c :=
    if bool_decide (sql = py "RAISE") then None
    else Some {| committed := committed c; uncommitted := uncommitted c ++ [sql] |};
  commit c :=
    Some {| committed := committed c ++ uncommitted c; uncommitted := [] |};
  rollback c := {| committed := committed c; uncommitted := [] |}
|}.

Definition demo_env : Env := {|
  uuid4 := py "0f8fad5b-d9cb-469f-a165-70867728950e";
  utcnow := py "2024-05-01 10:30:00.000000";
  open_fails := fun _ => false;
  write_fails := fun _ _ => None;
  replace_fails := fun _ _ => false
|}.

(** A disk that is full after seven more characters. *)
Definition demo_env_disk_full : Env := {|
  uuid4 := uuid4 demo_env;
  utcnow := utcnow demo_env;
  open_fails := fun _ => false;
  write_fails := fun _ _ => Some 7%nat;
  replace_fails := fun _ _ => false
|}.

Definition demo_revision (v : Z) (description : str) : Revision.t := {|
  Revision.kind := py "V";
  Revision.version := v;
  Revision.description := description;
  Revision.file :=
    path_join (py "/repo/migrations")
      (py "V" ++ str_of_int v ++ py "__" ++ description ++ py ".sql")
|}.

Definition demo_engine (revs : list Revision.t) (v : Z) : Migrations.t := {|
  Migrations.filename := py "migrations/revisions.json";
  Migrations.migrations_path := py "migrations";
  Migrations.root := py "/repo";
  Migrations.revisions := map (fun r => (Revision.version r, r)) revs;
  Migrations.version := v;
  Migrations.database_uri := CONNECTION_URI
|}.

(** A world whose scripts are [sqls], one per revision of [revs], and whose
    state file records version [v]. *)
Definition demo_world (revs : list Revision.t) (sqls : list str) (v : Z)
    : World Journal := {|
  files :=
    <[py "migrations/revisions.json" := state_json (demo_engine revs v)]>
      (list_to_map (zip (map Revision.file revs) sqls));
  conn := {| committed := []; uncommitted := [] |};
  trace := []
|}.

Definition r_users : Revision.t := demo_revision 1 (py "create_users").
Definition r_posts : Revision.t := demo_revision 2 (py "create_posts").
Definition r_tags : Revision.t := demo_revision 3 (py "create_tags").
Definition sql_users : str := py "CREATE TABLE users (id INTEGER PRIMARY KEY)".
Definition sql_posts : str := py "CREATE TABLE posts (id INTEGER PRIMARY KEY)".
Definition sql_tags : str := py "CREATE TABLE IF NOT EXISTS tags (name TEXT)".

(** The catalog [{3, 1, 2}] (in the order a directory scan may yield it),
    nothing applied yet. *)
Definition start_123 : Migrations.t * World Journal :=
  (demo_engine [r_tags; r_users; r_posts] 0,
   demo_world [r_tags; r_users; r_posts] [sql_tags; sql_users; sql_posts] 0).

(** The same, but the script of revision 2 fails. *)
Definition start_failing : Migrations.t * World Journal :=
  (demo_engine [r_tags; r_users; r_posts] 0,
   demo_world [r_tags; r_users; r_posts] [sql_tags; sql_users; py "RAISE"] 0).

(** The catalog [{1, 3}]: a gap at version 2. *)
Definition start_gap : Migrations.t * World Journal :=
  (demo_engine [r_users; r_tags] 0,
   demo_world [r_users; r_tags] [sql_users; sql_tags] 0).

(** Version 1 is applied and nothing is pending; and the same engine when a
    file for version 2 is already in the catalog. *)
Definition start_applied : Migrations.t * World Journal :=
  (demo_engine [r_users] 1, demo_world [r_users] [sql_users] 1).

Definition start_staged : Migrations.t * World Journal :=
  (demo_engine [r_users; r_posts] 1,
   demo_world [r_users; r_posts] [sql_users; sql_posts] 1).


(** A connection whose commits fail (the database is locked, say). *)
Record Locked : Type := { held : list str }.

#[global] Instance Locked_connection : Connection Locked := {|
  execute sql c := Some {| held := held c ++ [sql] |};
  commit c := None;
  rollback c := {| held := [] |}
|}.


(** The connection [sqlite.connect] returns, as [run_upgrade] passes it to
    [upgrade]: the transaction control is the default one of the [sqlite3]
    module.  A transaction is opened implicitly before a statement that
    starts (after blanks, in any case) with INSERT, UPDATE, DELETE or
    REPLACE, and before no other; a statement met while no transaction is
    open runs in autocommit mode and is durable at once.  [commit] and
    [rollback] end the open transaction, if there is one.  Of the database
    the model keeps the scripts that ran, and that the text [RAISE] is a
    syntax error. *)
Definition lower (c : N) : N :=
  if ((chr "A" <=? c) && (c <=? chr "Z"))%N then (c + 32)%N else c.

Fixpoint lstrip_blank (s : str) : str :=
  match s with
  | c :: s' =>
      if bool_decide (c ∈ [chr " "; 13; 10; 9]%N) then lstrip_blank s' else s
  | [] => []
  end.

Definition is_dml (sql : str) : bool :=
  let p := lstrip_blank sql in
  existsb (fun kw => bool_decide (map lower (take (length kw) p) = kw))
    [py "insert"; py "update"; py "delete"; py "replace"].

Record Sqlite3 : Type := {
  durable : list str;
  open_transaction : option (list str)
}.

#[global] Instance Sqlite3_connection : Connection Sqlite3 := {|
  execute sql c :=
    if bool_decide (sql = py "RAISE") then None
    else
      match open_transaction c with
      | Some stmts =>
          Some {| durable := durable c; open_transaction := Some (stmts ++ [sql]) |}
      | None =>
          if is_dml sql then
            Some {| durable := durable c; open_transaction := Some [sql] |}
          else Some {| durable := durable c ++ [sql]; open_transaction := None |}
      end;
  commit c :=
    Some {| durable := durable c ++ default [] (open_transaction c);
            open_transaction := None |};
  rollback c := {| durable := durable c; open_transaction := None |}
|}.

(** The repository of [start_failing] on a fresh database. *)
Definition start_failing_sqlite3 : Migrations.t * World Sqlite3 :=
  (fst start_failing,
   {| files := files (snd start_failing);
      conn := {| durable := []; open_transaction := None |};
      trace := [] |}).

(** The text of the state file of the demo repository at a version, and its
    temporary file. *)
Definition demo_state_text (version : str) : str :=
  py "{" ++ [QUOTE] ++ py "version" ++ [QUOTE] ++ py ": " ++ version ++ py ", "
  ++ [QUOTE] ++ py "database_uri" ++ [QUOTE] ++ py ": "
  ++ [QUOTE] ++ py "db.sqlite" ++ [QUOTE] ++ py "}".

Definition demo_temp : str :=
  py "migrations/revisions.json.0f8fad5b-d9cb-469f-a165-70867728950e.tmp".



(** * Properties *)

(** ** [sorted] *)

Lemma StronglySorted_impl {A : Type} (R R' : A -> A -> Prop) (l : list A) :
  (forall a b, R a b -> R' a b) -> StronglySorted R l -> StronglySorted R' l.
Proof.
  intros HR. induction 1 as [|x l Hl IH Hx]; constructor; [assumption|].
  eapply Forall_impl; [exact Hx|]. auto.
Qed.

Lemma StronglySorted_rev {A : Type} (R : A -> A -> Prop) (l : list A) :
  StronglySorted R l -> StronglySorted (fun a b => R b a) (rev l).
Proof.
  induction 1 as [|x l Hl IH Hx]; simpl; [constructor|].
  apply StronglySorted_app_2; [| assumption | repeat constructor].
  intros a b Ha Hb. apply list_elem_of_singleton in Hb as ->.
  rewrite Forall_forall in Hx. apply Hx.
  apply list_elem_of_In, in_rev. by apply list_elem_of_In.
Qed.

Section sorted_facts.
Context {A : Type} (key : A -> Z).

Lemma insert_sorted_perm (x : A) (l : list A) :
  insert_sorted key x l ≡ₚ x :: l.
Proof.
  induction l as [|y l IH]; simpl; [reflexivity|].
  destruct (key x <=? key y); [reflexivity|].
  rewrite IH. apply perm_swap.
Qed.

Lemma sorted_perm (l : list A) : sorted key l ≡ₚ l.
Proof.
  induction l as [|x l IH]; simpl; [reflexivity|].
  rewrite insert_sorted_perm. by rewrite IH.
Qed.

Lemma insert_sorted_ascending (x : A) (l : list A) :
  StronglySorted (fun a b => key a <= key b) l ->
  StronglySorted (fun a b => key a <= key b) (insert_sorted key x l).
Proof.
  induction l as [|y l IH]; simpl; intros Hl.
  - repeat constructor.
  - inversion Hl as [|? ? Hl' Hy]; subst.
    destruct (Z.leb_spec (key x) (key y)) as [Hxy|Hxy].
    + constructor; [assumption|]. constructor; [assumption|].
      eapply Forall_impl; [exact Hy|]. simpl. intros; lia.
    + constructor; [by apply IH|].
      rewrite insert_sorted_perm. constructor; [lia | assumption].
Qed.

Lemma sorted_ascending (l : list A) :
  StronglySorted (fun a b => key a <= key b) (sorted key l).
Proof.
  induction l as [|x l IH]; simpl; [constructor|].
  by apply insert_sorted_ascending.
Qed.

(** Inserting two elements with different keys: the order does not matter. *)
Lemma insert_sorted_comm (x y : A) (l : list A) :
  key x <> key y ->
  insert_sorted key x (insert_sorted key y l)
  = insert_sorted key y (insert_sorted key x l).
Proof.
  intros Hxy. induction l as [|z l IH]; simpl.
  - destruct (Z.leb_spec (key x) (key y)), (Z.leb_spec (key y) (key x));
      try reflexivity; lia.
  - destruct (Z.leb_spec (key y) (key z)) as [Hyz|Hyz],
             (Z.leb_spec (key x) (key z)) as [Hxz|Hxz]; simpl.
    + destruct (Z.leb_spec (key x) (key y)), (Z.leb_spec (key y) (key x));
        try lia.
      * destruct (Z.leb_spec (key y) (key z)); [reflexivity | lia].
      * destruct (Z.leb_spec (key x) (key z)); [reflexivity | lia].
    + destruct (Z.leb_spec (key x) (key y)); [lia|].
      destruct (Z.leb_spec (key x) (key z)); [lia|].
      destruct (Z.leb_spec (key y) (key z)); [reflexivity | lia].
    + destruct (Z.leb_spec (key y) (key x)); [lia|].
      destruct (Z.leb_spec (key y) (key z)); [lia|].
      destruct (Z.leb_spec (key x) (key z)); [reflexivity | lia].
    + destruct (Z.leb_spec (key x) (key z)); [lia|].
      destruct (Z.leb_spec (key y) (key z)); [lia|].
      by rewrite IH.
Qed.

(** With pairwise different keys, the result does not depend on the order
    of the input. *)
Lemma sorted_perm_eq (l l' : list A) :
  l ≡ₚ l' -> NoDup (map key l) -> sorted key l = sorted key l'.
Proof.
  induction 1 as [|x l l' Hp IH|x y l|l l' l'' Hp1 IH1 Hp2 IH2]; intros Hnd.
  - reflexivity.
  - simpl in *. apply NoDup_cons in Hnd as [_ Hnd]. by rewrite IH.
  - simpl in *. apply insert_sorted_comm.
    apply NoDup_cons in Hnd as [Hin _]. intros Heq. apply Hin.
    rewrite Heq. by left.
  - rewrite IH1 by assumption. apply IH2.
    by rewrite <- (Permutation_map key Hp1).
Qed.

Lemma sorted_of_ascending (l : list A) :
  StronglySorted (fun a b => key a <= key b) l -> sorted key l = l.
Proof.
  induction 1 as [|x l Hl IH Hx]; simpl; [reflexivity|].
  rewrite IH. destruct l as [|y l]; [reflexivity|]. simpl.
  inversion Hx; subst. destruct (Z.leb_spec (key x) (key y)); [reflexivity | lia].
Qed.

(** A catalog whose keys are those of a strictly ascending list is sorted
    into that list. *)
Lemma sorted_unique (l s : list A) :
  l ≡ₚ s -> StronglySorted (fun a b => key a < key b) s -> sorted key l = s.
Proof.
  intros Hp Hs.
  assert (Hnd : NoDup (map key s)).
  { clear Hp. induction Hs as [|x s Hs IH Hx]; simpl; constructor; [|assumption].
    change (map key s) with (key <$> s).
    rewrite list_elem_of_fmap. intros (y & Hy & Hin).
    rewrite Forall_forall in Hx. specialize (Hx y Hin). lia. }
  rewrite (sorted_perm_eq l s Hp).
  - apply sorted_of_ascending.
    eapply StronglySorted_impl; [|exact Hs]. intros a b; simpl; lia.
  - by rewrite (Permutation_map key Hp).
Qed.

End sorted_facts.

(** ** The engine's calls, one by one *)

Section engine_facts.
Context {C : Type} `{!Connection C}.

Lemma temp_of_set_version (e : Env) (v : Z) (m : Migrations.t) :
  temp_of e (Migrations.set_version v m) = temp_of e m.
Proof. reflexivity. Qed.

(** The temporary file is never the state file itself. *)
Lemma temp_of_neq (e : Env) (m : Migrations.t) :
  temp_of e m <> Migrations.filename m.
Proof.
  unfold temp_of. intros Heq. apply (f_equal length) in Heq.
  rewrite !length_app in Heq. simpl in Heq. lia.
Qed.

(** Every way [save] can end. *)
Lemma save_spec (e : Env) (m : Migrations.t) (w : World C) r m' w' :
  Migrations.save e (m, w) = (r, (m', w')) ->
  m' = m /\ conn w' = conn w /\
  match r with
  | Ok _ =>
      can_save e m
      /\ files w' = <[Migrations.filename m := state_json m]>
                     (delete (temp_of e m) (files w))
      /\ trace w' = trace w ++ save_events e m
  | Raise err =>
      (open_fails e (temp_of e m) = true
       /\ err = OSError (EvOpen (temp_of e m))
       /\ files w' = files w
       /\ trace w' = trace w ++ [EvOpen (temp_of e m)])
      \/ (exists n, write_fails e (temp_of e m) (state_json m) = Some n
          /\ err = OSError (EvWrite (temp_of e m) (state_json m))
          /\ files w' = <[temp_of e m := take n (state_json m)]> (files w)
          /\ trace w' = trace w ++ [EvOpen (temp_of e m);
                                    EvWrite (temp_of e m) (state_json m)])
      \/ (replace_fails e (temp_of e m) (Migrations.filename m) = true
          /\ err = OSError (EvReplace (temp_of e m) (Migrations.filename m))
          /\ files w' = <[temp_of e m := state_json m]> (files w)
          /\ trace w' = trace w ++ save_events e m)
  end.
Proof.
  intros Hs. unfold_calls. cbn in Hs.
  fold (temp_of e m) in Hs. fold (state_json m) in Hs.
  unfold can_save, can_write, save_events.
  destruct (open_fails e (temp_of e m)) eqn:Ho; cbn in Hs.
  { injection Hs as <- <- <-; cbn. auto 10. }
  destruct (write_fails e (temp_of e m) (state_json m)) as [n|] eqn:Hw;
    cbn in Hs.
  { injection Hs as <- <- <-; cbn. rewrite insert_insert_eq, <- app_assoc.
    split; [done|]. split; [done|]. right; left. exists n. auto. }
  destruct (replace_fails e (temp_of e m) (Migrations.filename m)) eqn:Hr;
    cbn in Hs.
  { injection Hs as <- <- <-; cbn. rewrite insert_insert_eq, <- !app_assoc.
    split; [done|]. split; [done|]. right; right. auto. }
  rewrite lookup_insert_eq in Hs. injection Hs as <- <- <-; cbn.
  rewrite insert_insert_eq, delete_insert_eq, <- !app_assoc. auto 10.
Qed.

(** [save] on a disk that lets it through. *)
Lemma save_ok (e : Env) (m : Migrations.t) (w : World C) :
  can_save e m ->
  Migrations.save e (m, w)
  = (Ok tt,
     (m, {| files := <[Migrations.filename m := state_json m]>
                       (delete (temp_of e m) (files w));
            conn := conn w;
            trace := trace w ++ save_events e m |})).
Proof.
  intros [[Ho Hw] Hr]. unfold_calls. cbn.
  fold (temp_of e m). fold (state_json m).
  rewrite Ho; cbn. rewrite Hw; cbn. rewrite Hr; cbn.
  rewrite lookup_insert_eq, insert_insert_eq, delete_insert_eq, <- !app_assoc.
  reflexivity.
Qed.

Lemma execute_all_app (sqls1 sqls2 : list str) (c : C) :
  execute_all (sqls1 ++ sqls2) c
  = match execute_all sqls1 c with
    | Some c' => execute_all sqls2 c'
    | None => None
    end.
Proof.
  revert c. induction sqls1 as [|sql sqls1 IH]; intros c; simpl; [reflexivity|].
  destruct (execute sql c); [apply IH | reflexivity].
Qed.

(** Every way the loop of [upgrade] can end: it neither changes the engine
    nor the files; it stops at the first script that is missing or fails. *)
Lemma upgrade_loop_spec (ordered : list Revision.t) :
  forall (n : Z) (m : Migrations.t) (w : World C) r m' w',
  Migrations.upgrade_loop ordered n (m, w) = (r, (m', w')) ->
  let ps := List.filter (is_pending m) ordered in
  m' = m /\ files w' = files w /\
  match r with
  | Ok k =>
      k = n + Z.of_nat (length ps)
      /\ Forall (fun r => is_Some (files w !! Revision.file r)) ps
      /\ execute_all (map (script (files w)) ps) (conn w) = Some (conn w')
      /\ trace w' = trace w ++ apply_events (files w) ps
  | Raise err =>
      exists done r rest,
        ps = done ++ r :: rest
        /\ Forall (fun r => is_Some (files w !! Revision.file r)) done
        /\ execute_all (map (script (files w)) done) (conn w) = Some (conn w')
        /\ ((files w !! Revision.file r = None
             /\ err = FileNotFoundError (Revision.file r)
             /\ trace w' = trace w ++ apply_events (files w) done
                           ++ [EvReadText (Revision.file r)])
            \/ (is_Some (files w !! Revision.file r)
                /\ execute (script (files w) r) (conn w') = None
                /\ err = SqliteError (EvExecute (script (files w) r))
                /\ trace w' = trace w ++ apply_events (files w) (done ++ [r])))
  end.
Proof.
  induction ordered as [|rv ordered IH]; intros n m w r m' w' Hl.
  { injection Hl as <- <- <-. cbn. rewrite app_nil_r.
    repeat split; try done. lia. }
  cbn in Hl. unfold_calls. cbn in Hl. simpl.
  fold (is_pending m rv) in Hl |- *.
  destruct (is_pending m rv) eqn:Hp; cbn in Hl; [|by apply IH in Hl].
  destruct (files w !! Revision.file rv) as [sql|] eqn:Hf; cbn in Hl.
  2:{ injection Hl as <- <- <-. cbn. split; [done|]. split; [done|].
      exists [], rv, (List.filter (is_pending m) ordered). simpl. auto 10. }
  destruct (execute sql (conn w)) as [c'|] eqn:He; cbn in Hl.
  2:{ injection Hl as <- <- <-. cbn. split; [done|]. split; [done|].
      exists [], rv, (List.filter (is_pending m) ordered). simpl.
      unfold script. rewrite Hf. simpl. rewrite <- app_assoc.
      split; [done|]. split; [done|]. split; [done|]. right. eauto 10. }
  apply IH in Hl. cbn in Hl. destruct Hl as (-> & Hfs & Hr).
  split; [done|]. split; [done|].
  assert (Hs : script (files w) rv = sql) by (unfold script; by rewrite Hf).
  destruct r as [k|err].
  - destruct Hr as (-> & Hall & Hex & Htr). simpl. rewrite Hs, He.
    split; [lia|]. split; [by constructor|]. split; [done|].
    rewrite Htr, <- !app_assoc. reflexivity.
  - destruct Hr as (done & r' & rest & Hps & Hall & Hex & Hcase).
    exists (rv :: done), r', rest. simpl. rewrite Hs, He, Hps.
    split; [done|]. split; [by constructor|]. split; [done|].
    destruct Hcase as [(Hn & -> & Htr)|(Hsome & Hx & -> & Htr)]; [left|right].
    + split; [done|]. split; [done|]. rewrite Htr, <- !app_assoc. done.
    + split; [done|]. split; [done|]. split; [done|].
      rewrite Htr, <- !app_assoc. done.
Qed.

(** The loop when every pending script is there and executes. *)
Lemma upgrade_loop_ok (ordered : list Revision.t) :
  forall (n : Z) (m : Migrations.t) (w : World C) (c' : C),
  let ps := List.filter (is_pending m) ordered in
  Forall (fun r => is_Some (files w !! Revision.file r)) ps ->
  execute_all (map (script (files w)) ps) (conn w) = Some c' ->
  Migrations.upgrade_loop ordered n (m, w)
  = (Ok (n + Z.of_nat (length ps)),
     (m, {| files := files w; conn := c';
            trace := trace w ++ apply_events (files w) ps |})).
Proof.
  intros n m w c' ps Hall Hex.
  destruct (Migrations.upgrade_loop ordered n (m, w)) as [r [m' w']] eqn:Hl.
  apply upgrade_loop_spec in Hl. fold ps in Hl.
  destruct Hl as (-> & Hfs & Hr). destruct r as [k|err].
  - destruct Hr as (-> & _ & Hex' & Htr). rewrite Hex in Hex'.
    inversion Hex'; subst. destruct w'; simpl in *. by subst.
  - exfalso. destruct Hr as (done & r' & rest & Hps & _ & Hex' & Hcase).
    rewrite Hps in Hall, Hex. apply Forall_app in Hall as [_ Hall].
    apply Forall_cons in Hall as [[sql Hsql] _].
    rewrite map_app, execute_all_app, Hex' in Hex. simpl in Hex.
    destruct Hcase as [(Hn & _)|(_ & Hx & _)]; [congruence|].
    by rewrite Hx in Hex.
Qed.



End engine_facts.

Section upgrade_facts.
Context {C : Type} `{!Connection C}.

Lemma conn_commit_eq {X : Type} (s : X * World C) :
  conn_commit s
  = match commit (conn (snd s)) with
    | Some c' => (Ok tt, committed_as c' s)
    | None => (Raise (SqliteError EvCommit), committed_as (conn (snd s)) s)
    end.
Proof.
  unfold_calls. cbn. unfold committed_as. by destruct (commit (conn (snd s))).
Qed.

(** [upgrade], stage by stage: the loop, the new version, [save], the
    commit of the body and the commit on leaving the block; whichever stage
    raises, the block rolls back. *)
Lemma upgrade_unfold (e : Env) (m : Migrations.t) (w : World C) :
  Migrations.upgrade e (m, w)
  = match Migrations.upgrade_loop (Migrations.ordered_revisions m) 0 (m, w) with
    | (Ok k, (m1, w1)) =>
        match Migrations.save e
                (Migrations.set_version (Migrations.version m1 + k) m1, w1) with
        | (Ok _, s2) =>
            match conn_commit s2 with
            | (Ok _, s3) =>
                match conn_commit s3 with
                | (Ok _, s4) => (Ok k, s4)
                | (Raise err, s4) => (Raise err, rolled_back s4)
                end
            | (Raise err, s3) => (Raise err, rolled_back s3)
            end
        | (Raise err, s2) => (Raise err, rolled_back s2)
        end
    | (Raise err, s1) => (Raise err, rolled_back s1)
    end.
Proof.
  unfold Migrations.upgrade, with_connection. unfold_monad. cbn.
  destruct (Migrations.upgrade_loop _ 0 (m, w)) as [[k|err] [m1 w1]]; cbn;
    [|reflexivity].
  destruct (Migrations.save e _) as [[[]|err] s2]; cbn; [|reflexivity].
  destruct (conn_commit s2) as [[[]|err] s3]; cbn; [|reflexivity].
  destruct (conn_commit s3) as [[[]|err] s4]; reflexivity.
Qed.


(** What a successful [upgrade] has done. *)
Lemma upgrade_ok_inv (e : Env) (m : Migrations.t) (w : World C) k m' w' :
  Migrations.upgrade e (m, w) = (Ok k, (m', w')) ->
  k = Z.of_nat (length (pending m))
  /\ m' = Migrations.set_version (Migrations.version m + k) m
  /\ Forall (fun r => is_Some (files w !! Revision.file r)) (pending m)
  /\ can_save e m'
  /\ (exists c1 c2,
        execute_all (map (script (files w)) (pending m)) (conn w) = Some c1
        /\ commit c1 = Some c2 /\ commit c2 = Some (conn w'))
  /\ files w' = <[Migrations.filename m := state_json m']>
                  (delete (temp_of e m) (files w))
  /\ trace w' = trace w ++ apply_events (files w) (pending m)
                ++ save_events e m' ++ [EvCommit; EvCommit].
Proof.
  rewrite upgrade_unfold. intros Hu.
  destruct (Migrations.upgrade_loop _ 0 (m, w)) as [[k1|err] [m1 w1]] eqn:Hl;
    [|discriminate].
  apply upgrade_loop_spec in Hl. fold (pending m) in Hl.
  destruct Hl as (-> & Hfs & Hk & Hall & Hex & Htr). rewrite Z.add_0_l in Hk.
  destruct (Migrations.save e _) as [[[]|err] [m2 w2]] eqn:Hs; [|discriminate].
  apply save_spec in Hs. destruct Hs as (-> & Hc & Hcan & Hfs2 & Htr2).
  rewrite conn_commit_eq in Hu. cbn in Hu.
  destruct (commit (conn w2)) as [c2|] eqn:Hc2; cbn in Hu; [|discriminate].
  rewrite conn_commit_eq in Hu. cbn in Hu.
  destruct (commit c2) as [c3|] eqn:Hc3; [|discriminate].
  injection Hu as <- <- <-. cbn. subst k1.
  split; [done|]. split; [done|]. split; [done|]. split; [done|].
  rewrite Hc in Hc2. split; [by exists (conn w1), c2|].
  rewrite Hfs2, Htr2, Htr, Hfs, <- !app_assoc. done.
Qed.

(** [upgrade] when nothing fails. *)
Lemma upgrade_ok (e : Env) (m : Migrations.t) (w : World C) (c1 c2 c3 : C) :
  let k := Z.of_nat (length (pending m)) in
  let m' := Migrations.set_version (Migrations.version m + k) m in
  Forall (fun r => is_Some (files w !! Revision.file r)) (pending m) ->
  execute_all (map (script (files w)) (pending m)) (conn w) = Some c1 ->
  can_save e m' ->
  commit c1 = Some c2 ->
  commit c2 = Some c3 ->
  Migrations.upgrade e (m, w)
  = (Ok k,
     (m', {| files := <[Migrations.filename m := state_json m']>
                        (delete (temp_of e m) (files w));
             conn := c3;
             trace := trace w ++ apply_events (files w) (pending m)
                      ++ save_events e m' ++ [EvCommit; EvCommit] |})).
Proof.
  intros k m' Hall Hex Hcan Hc2 Hc3. rewrite upgrade_unfold.
  rewrite (upgrade_loop_ok _ 0 m w c1 Hall Hex). fold (pending m).
  rewrite Z.add_0_l. fold k. fold m'. rewrite (save_ok e m' _ Hcan).
  rewrite conn_commit_eq. cbn. rewrite Hc2. cbn.
  rewrite conn_commit_eq. cbn. rewrite Hc3.
  unfold committed_as. cbn. rewrite <- !app_assoc. reflexivity.
Qed.

End upgrade_facts.

(** ** The claims about [upgrade] *)

Section upgrade_claims.
Context {C : Type} `{!Connection C}.

Lemma apply_events_quiet (fs : gmap str str) (revs : list Revision.t) :
  Forall (fun ev => writes_or_commits ev = false) (apply_events fs revs).
Proof.
  induction revs as [|r revs IH]; simpl; [constructor|].
  by repeat constructor.
Qed.

Lemma apply_events_app (fs : gmap str str) (revs1 revs2 : list Revision.t) :
  apply_events fs (revs1 ++ revs2)
  = apply_events fs revs1 ++ apply_events fs revs2.
Proof. unfold apply_events. by rewrite flat_map_app. Qed.

(** Whenever [upgrade] raises the error of an execution, the engine is
    left as it was (so [version] is unchanged), no file is touched and
    [save] is not called: the only calls made are the reads and executions
    up to the failing script, followed by the rollback of the connection. *)
Lemma upgrade_execute_failure_keeps_state
    (e : Env) (m : Migrations.t) (w : World C) (sql : str)
    (m' : Migrations.t) (w' : World C) :
  Migrations.upgrade e (m, w)
  = (Raise (SqliteError (EvExecute sql)), (m', w')) ->
  m' = m
  /\ Migrations.version m' = Migrations.version m
  /\ files w' = files w
  /\ exists done r rest c1,
       pending m = done ++ r :: rest
       /\ sql = script (files w) r
       /\ execute_all (map (script (files w)) done) (conn w) = Some c1
       /\ execute sql c1 = None
       /\ conn w' = rollback c1
       /\ trace w' = trace w ++ apply_events (files w) (done ++ [r])
                     ++ [EvRollback]
       /\ Forall (fun ev => writes_or_commits ev = false)
            (apply_events (files w) (done ++ [r]) ++ [EvRollback]).
Proof.
  rewrite upgrade_unfold. intros Hu.
  destruct (Migrations.upgrade_loop _ 0 (m, w)) as [[k1|err] [m1 w1]] eqn:Hl.
  - (* the loop went through: a later stage raised something else *)
    exfalso. apply upgrade_loop_spec in Hl. destruct Hl as (-> & _).
    destruct (Migrations.save e _) as [[[]|err] [m2 w2]] eqn:Hs.
    + rewrite conn_commit_eq in Hu. cbn in Hu.
      destruct (commit (conn w2)); cbn in Hu; [|discriminate].
      rewrite conn_commit_eq in Hu. cbn in Hu.
      destruct (commit c); discriminate.
    + apply save_spec in Hs. destruct Hs as (_ & _ & Hcase).
      injection Hu as -> _.
      destruct Hcase as [(_ & ? & _)|[(? & _ & ? & _)|(_ & ? & _)]];
        discriminate.
  - apply upgrade_loop_spec in Hl. fold (pending m) in Hl.
    destruct Hl as (-> & Hfs & done & r & rest & Hps & _ & Hex & Hcase).
    injection Hu as -> <- <-. cbn.
    destruct Hcase as [(_ & ? & _)|(_ & Hx & Herr & Htr)]; [discriminate|].
    injection Herr as ->.
    split; [done|]. split; [done|]. split; [done|].
    exists done, r, rest, (conn w1). rewrite Htr, <- app_assoc.
    repeat split; try done.
    apply Forall_app; split; [apply apply_events_quiet | by repeat constructor].
Qed.



(** The catalog sorts into a strictly ascending list of the same revisions. *)
Lemma ordered_revisions_unique (m : Migrations.t) (s : list Revision.t) :
  Dict.values (Migrations.revisions m) ≡ₚ s ->
  StronglySorted (fun a b => Revision.version a < Revision.version b) s ->
  Migrations.ordered_revisions m = s.
Proof. apply sorted_unique. Qed.

(** C3.  With a catalog of exactly three revisions, of versions 1, 2 and 3,
    and [version = 0], an [upgrade] whose scripts execute and whose [save]
    and commits go through reads and executes the three scripts in the order
    1, 2, 3, returns 3 and leaves [version = 3], in the engine and in the
    state file. *)
Theorem upgrade_applies_1_2_3
    (e : Env) (m : Migrations.t) (w : World C) (r1 r2 r3 : Revision.t)
    (s1 s2 s3 : str) (c1 c2 c3 c4 c5 : C) :
  Dict.values (Migrations.revisions m) ≡ₚ [r1; r2; r3] ->
  Revision.version r1 = 1 -> Revision.version r2 = 2 ->
  Revision.version r3 = 3 ->
  Migrations.version m = 0 ->
  files w !! Revision.file r1 = Some s1 ->
  files w !! Revision.file r2 = Some s2 ->
  files w !! Revision.file r3 = Some s3 ->
  execute s1 (conn w) = Some c1 -> execute s2 c1 = Some c2 ->
  execute s3 c2 = Some c3 ->
  open_fails e (temp_of e m) = false ->
  write_fails e (temp_of e m)
    (json_dumps {| Revisions.version := 3;
                   Revisions.database_uri := Migrations.database_uri m |})
  = None ->
  replace_fails e (temp_of e m) (Migrations.filename m) = false ->
  commit c3 = Some c4 -> commit c4 = Some c5 ->
  Migrations.upgrade e (m, w)
  = (Ok 3,
     ({| Migrations.filename := Migrations.filename m;
         Migrations.migrations_path := Migrations.migrations_path m;
         Migrations.root := Migrations.root m;
         Migrations.revisions := Migrations.revisions m;
         Migrations.version := 3;
         Migrations.database_uri := Migrations.database_uri m |},
      {| files :=
           <[Migrations.filename m :=
               json_dumps {| Revisions.version := 3;
                             Revisions.database_uri := Migrations.database_uri m |}]>
             (delete (temp_of e m) (files w));
         conn := c5;
         trace := trace w
                  ++ [EvReadText (Revision.file r1); EvExecute s1;
                      EvReadText (Revision.file r2); EvExecute s2;
                      EvReadText (Revision.file r3); EvExecute s3]
                  ++ [EvOpen (temp_of e m);
                      EvWrite (temp_of e m)
                        (json_dumps
                           {| Revisions.version := 3;
                              Revisions.database_uri := Migrations.database_uri m |});
                      EvReplace (temp_of e m) (Migrations.filename m)]
                  ++ [EvCommit; EvCommit] |})).
Proof.
  intros Hp Hv1 Hv2 Hv3 Hv Hf1 Hf2 Hf3 He1 He2 He3 Hopen Hwrite Hrepl Hc4 Hc5.
  assert (Hord : Migrations.ordered_revisions m = [r1; r2; r3]).
  { apply ordered_revisions_unique; [exact Hp|].
    repeat constructor; lia. }
  assert (Hpend : pending m = [r1; r2; r3]).
  { unfold pending, is_pending. rewrite Hord. simpl.
    rewrite Hv, Hv1, Hv2, Hv3. reflexivity. }
  assert (Hcan : can_save e (Migrations.set_version 3 m)).
  { split; [split|]; assumption. }
  rewrite (upgrade_ok e m w c3 c4 c5); rewrite ?Hpend, ?Hv; simpl.
  - unfold script. rewrite Hf1, Hf2, Hf3. reflexivity.
  - repeat constructor; eauto.
  - unfold script. rewrite Hf1, Hf2, Hf3. simpl. by rewrite He1, He2, He3.
  - exact Hcan.
  - exact Hc4.
  - exact Hc5.
Qed.

End upgrade_claims.

(** C1.  A fresh database under the default transaction control of
    [sqlite3], the catalog [{1, 2, 3}] at version 0, the script of
    revision 2 failing.  [upgrade] raises, [version] is still 0 and the
    state file is not rewritten; but the [CREATE TABLE] of revision 1 ran
    outside any transaction and is in the database after the rollback: of
    the three pending revisions, one is applied and two are not. *)
Theorem upgrade_failure_keeps_first_script :
  Migrations.upgrade demo_env start_failing_sqlite3
  = (Raise (SqliteError (EvExecute (py "RAISE"))),
     (fst start_failing_sqlite3,
      {| files := files (snd start_failing_sqlite3);
         conn := {| durable := [sql_users]; open_transaction := None |};
         trace := [EvReadText (py "/repo/migrations/V1__create_users.sql");
                   EvExecute sql_users;
                   EvReadText (py "/repo/migrations/V2__create_posts.sql");
                   EvExecute (py "RAISE");
                   EvRollback] |}))
  /\ Migrations.version (fst start_failing_sqlite3) = 0
  /\ files (snd start_failing_sqlite3) !! py "migrations/revisions.json"
     = Some (demo_state_text (py "0"))
  /\ pending (fst start_failing_sqlite3) = [r_users; r_posts; r_tags].
Proof. vm_compute. repeat split. Qed.



Lemma upgrade_applies_1_2_3_witness :
  fst (Migrations.upgrade demo_env (fst start_123, snd start_123)) = Ok 3
  /\ Migrations.version
       (fst (snd (Migrations.upgrade demo_env (fst start_123, snd start_123))))
     = 3
  /\ files (snd (snd (Migrations.upgrade demo_env
                        (fst start_123, snd start_123))))
       !! py "migrations/revisions.json"
     = Some (demo_state_text (py "3"))
  /\ trace (snd (snd (Migrations.upgrade demo_env
                        (fst start_123, snd start_123))))
     = [EvReadText (py "/repo/migrations/V1__create_users.sql");
        EvExecute sql_users;
        EvReadText (py "/repo/migrations/V2__create_posts.sql");
        EvExecute sql_posts;
        EvReadText (py "/repo/migrations/V3__create_tags.sql");
        EvExecute sql_tags;
        EvOpen demo_temp;
        EvWrite demo_temp (demo_state_text (py "3"));
        EvReplace demo_temp (py "migrations/revisions.json");
        EvCommit; EvCommit].
Proof.
  assert (Hp : Dict.values (Migrations.revisions (fst start_123))
               ≡ₚ [r_users; r_posts; r_tags]).
  { change (Dict.values (Migrations.revisions (fst start_123)))
      with ([r_tags] ++ [r_users; r_posts]).
    symmetry. apply (Permutation_app_comm [r_users; r_posts] [r_tags]). }
  assert (Hf1 : files (snd start_123) !! Revision.file r_users = Some sql_users)
    by (vm_compute; reflexivity).
  assert (Hf2 : files (snd start_123) !! Revision.file r_posts = Some sql_posts)
    by (vm_compute; reflexivity).
  assert (Hf3 : files (snd start_123) !! Revision.file r_tags = Some sql_tags)
    by (vm_compute; reflexivity).
  assert (He1 : execute sql_users (conn (snd start_123))
                = Some {| committed := []; uncommitted := [sql_users] |})
    by (vm_compute; reflexivity).
  assert (He2 : execute sql_posts {| committed := []; uncommitted := [sql_users] |}
                = Some {| committed := []; uncommitted := [sql_users; sql_posts] |})
    by (vm_compute; reflexivity).
  assert (He3 : execute sql_tags
                  {| committed := []; uncommitted := [sql_users; sql_posts] |}
                = Some {| committed := [];
                          uncommitted := [sql_users; sql_posts; sql_tags] |})
    by (vm_compute; reflexivity).
  assert (Hc4 : commit {| committed := [];
                          uncommitted := [sql_users; sql_posts; sql_tags] |}
                = Some {| committed := [sql_users; sql_posts; sql_tags];
                          uncommitted := [] |})
    by (vm_compute; reflexivity).
  assert (Hc5 : commit {| committed := [sql_users; sql_posts; sql_tags];
                          uncommitted := [] |}
                = Some {| committed := [sql_users; sql_posts; sql_tags];
                          uncommitted := [] |})
    by (vm_compute; reflexivity).
  rewrite (upgrade_applies_1_2_3 demo_env (fst start_123) (snd start_123)
    r_users r_posts r_tags sql_users sql_posts sql_tags _ _ _ _ _
    Hp eq_refl eq_refl eq_refl eq_refl Hf1 Hf2 Hf3 He1 He2 He3
    eq_refl eq_refl eq_refl Hc4 Hc5).
  vm_compute. repeat split.
Defined.

Section upgrade_twice.
Context {C : Type} `{!Connection C}.

Lemma filter_nil {A : Type} (f : A -> bool) (l : list A) :
  (forall x, In x l -> f x = false) -> List.filter f l = [].
Proof.
  induction l as [|x l IH]; intros Hf; simpl; [reflexivity|].
  rewrite (Hf x (or_introl eq_refl)). apply IH. intros y Hy. apply Hf. by right.
Qed.

Lemma set_version_same (m : Migrations.t) (k : Z) :
  k = 0 -> Migrations.set_version (Migrations.version m + k) m = m.
Proof. intros ->. rewrite Z.add_0_r. by destruct m. Qed.

Lemma pending_set_version (m : Migrations.t) (v : Z) :
  pending (Migrations.set_version v m)
  = List.filter (fun r => v <? Revision.version r)
      (Migrations.ordered_revisions m).
Proof. reflexivity. Qed.


(** C6, as the code has it.  When the pending versions have no gap (they
    are [version + 1], [version + 2], ... in turn, as [create_revision]
    allots them), a second [upgrade] after a successful one, whose [save]
    and commits go through, executes no script, returns 0 and leaves the
    engine, hence [version], as it was. *)
Theorem upgrade_twice_without_gap
    (e e2 : Env) (m : Migrations.t) (w : World C) (k : Z)
    (m' : Migrations.t) (w' : World C) (c2 c3 : C) :
  Migrations.upgrade e (m, w) = (Ok k, (m', w')) ->
  map Revision.version (pending m)
  = seqZ (Migrations.version m + 1) (Z.of_nat (length (pending m))) ->
  can_save e2 m' ->
  commit (conn w') = Some c2 -> commit c2 = Some c3 ->
  Migrations.upgrade e2 (m', w')
  = (Ok 0,
     (m', {| files := <[Migrations.filename m' := state_json m']>
                        (delete (temp_of e2 m') (files w'));
             conn := c3;
             trace := trace w' ++ save_events e2 m' ++ [EvCommit; EvCommit] |})).
Proof.
  intros Hu Hgap Hcan Hc2 Hc3. apply upgrade_ok_inv in Hu.
  destruct Hu as (Hk & Hm' & _).
  assert (Hpend' : pending m' = []).
  { rewrite Hm', pending_set_version, Hk.
    apply filter_nil. intros r Hin.
    destruct (is_pending m r) eqn:Hp.
    - assert (Hr : Revision.version r ∈ map Revision.version (pending m)).
      { apply list_elem_of_In, in_map, filter_In. by split. }
      rewrite Hgap in Hr. apply elem_of_seqZ in Hr.
      apply Z.ltb_ge. lia.
    - unfold is_pending in Hp. apply Z.ltb_ge in Hp.
      apply Z.ltb_ge. lia. }
  pose proof (upgrade_ok e2 m' w' (conn w') c2 c3) as Hrun.
  cbv zeta in Hrun. rewrite Hpend' in Hrun.
  change (Z.of_nat (length (@nil Revision.t))) with 0 in Hrun.
  rewrite (set_version_same m' 0 eq_refl) in Hrun.
  apply Hrun; done.
Qed.

End upgrade_twice.


(** A catalog with a gap: the second [upgrade] applies revision 3 again. *)
Lemma upgrade_twice_with_gap :
  fst (Migrations.upgrade demo_env start_gap) = Ok 2
  /\ fst (Migrations.upgrade demo_env
            (snd (Migrations.upgrade demo_env start_gap))) = Ok 1
  /\ Migrations.version (fst (snd (Migrations.upgrade demo_env start_gap))) = 2
  /\ Migrations.version
       (fst (snd (Migrations.upgrade demo_env
                    (snd (Migrations.upgrade demo_env start_gap))))) = 3.
Proof. vm_compute. repeat split. Qed.

Lemma upgrade_twice_without_gap_witness :
  fst (Migrations.upgrade demo_env
         (fst (snd (Migrations.upgrade demo_env start_123)),
          snd (snd (Migrations.upgrade demo_env start_123)))) = Ok 0.
Proof.
  assert (Hrun :
    Migrations.upgrade demo_env (fst start_123, snd start_123)
    = (Ok 3,
       (fst (snd (Migrations.upgrade demo_env start_123)),
        snd (snd (Migrations.upgrade demo_env start_123)))))
    by (vm_compute; reflexivity).
  assert (Hgap :
    map Revision.version (pending (fst start_123))
    = seqZ (Migrations.version (fst start_123) + 1)
        (Z.of_nat (length (pending (fst start_123)))))
    by (vm_compute; reflexivity).
  assert (Hcan :
    can_save demo_env (fst (snd (Migrations.upgrade demo_env start_123))))
    by (repeat split).
  assert (Hc2 :
    commit (conn (snd (snd (Migrations.upgrade demo_env start_123))))
    = Some {| committed := [sql_users; sql_posts; sql_tags]; uncommitted := [] |})
    by (vm_compute; reflexivity).
  assert (Hc3 :
    commit {| committed := [sql_users; sql_posts; sql_tags]; uncommitted := [] |}
    = Some {| committed := [sql_users; sql_posts; sql_tags]; uncommitted := [] |})
    by (vm_compute; reflexivity).
  rewrite (upgrade_twice_without_gap demo_env demo_env _ _ _ _ _ _ _
             Hrun Hgap Hcan Hc2 Hc3).
  reflexivity.
Defined.

(** ** The history shown by [log] *)

Section log_claims.
Context {C : Type} `{!Connection C}.

Lemma echo_all_eq (lines : list str) (s : Migrations.t * World C) :
  echo_all lines s
  = (Ok tt, (fst s, {| files := files (snd s); conn := conn (snd s);
                       trace := trace (snd s) ++ map EvEcho lines |})).
Proof.
  revert s. induction lines as [|line lines IH]; intros [m w]; simpl.
  - unfold_monad. cbn. rewrite app_nil_r. by destruct w.
  - unfold_calls. cbn. unfold_calls. rewrite IH. cbn.
    by rewrite <- app_assoc.
Qed.

(** C7, as the code has it.  [log] walks through all cataloged revisions,
    newest first (descending in the version) when [--reverse] is not given
    and oldest first (ascending) when it is; the sequence with [--reverse]
    is the exact reverse of the one without; and [log] echoes one line per
    revision in that order. *)
Theorem log_newest_first_unless_reverse (m : Migrations.t) (w : World C) :
  log_revs false m ≡ₚ Dict.values (Migrations.revisions m)
  /\ descending (log_revs false m)
  /\ log_revs true m ≡ₚ Dict.values (Migrations.revisions m)
  /\ ascending (log_revs true m)
  /\ log_revs true m = rev (log_revs false m)
  /\ forall reverse : bool,
       log reverse (m, w)
       = (Ok tt,
          (m, {| files := files w; conn := conn w;
                 trace := trace w
                          ++ map (fun r => EvEcho (log_line r))
                               (log_revs reverse m) |})).
Proof.
  unfold log_revs, Migrations.ordered_revisions. simpl.
  split; [by rewrite <- Permutation_rev, sorted_perm|].
  split; [apply StronglySorted_rev, sorted_ascending|].
  split; [apply sorted_perm|].
  split; [apply sorted_ascending|].
  split; [by rewrite rev_involutive|].
  intros reverse. unfold log. unfold_monad. cbn.
  rewrite echo_all_eq. cbn. by rewrite map_map.
Qed.

End log_claims.

(** Without [--reverse] the history of the catalog [{1, 2, 3}] is shown as
    3, 2, 1, which is not ascending; with [--reverse] as 1, 2, 3. *)
Lemma log_default_is_not_ascending :
  map Revision.version (log_revs false (fst start_123)) = [3; 2; 1]
  /\ map Revision.version (log_revs true (fst start_123)) = [1; 2; 3]
  /\ ~ ascending (log_revs false (fst start_123)).
Proof.
  split; [reflexivity|]. split; [reflexivity|].
  intros Hasc. apply StronglySorted_inv in Hasc as [_ Hasc].
  apply Forall_inv in Hasc. simpl in Hasc. lia.
Qed.

(** ** Decimal texts: [str(n)] read back by [int] *)

Lemma py_String (a : ascii) (s : string) :
  py (String a s) = N_of_ascii a :: py s.
Proof. reflexivity. Qed.

Lemma int_digits_acc (u : Decimal.uint) (acc : positive) :
  fold_left (fun a c => 10 * a + (Z.of_N c - 48)) (digits_of u) (Z.pos acc)
  = Z.pos (Pos.of_uint_acc u acc).
Proof.
  revert acc. unfold digits_of.
  induction u as [|u IH|u IH|u IH|u IH|u IH|u IH|u IH|u IH|u IH|u IH];
    intros acc; cbn [NilEmpty.string_of_uint Pos.of_uint_acc];
    [reflexivity|..];
    rewrite py_String; cbn [fold_left]; rewrite <- IH; f_equal;
    vm_compute (N_of_ascii _); lia.
Qed.

Lemma int_digits (u : Decimal.uint) :
  int (digits_of u) = Z.of_uint u.
Proof.
  unfold int, Z.of_uint.
  induction u as [|u IH|u IH|u IH|u IH|u IH|u IH|u IH|u IH|u IH|u IH];
    [reflexivity | exact IH | ..];
    unfold digits_of; cbn [NilEmpty.string_of_uint Pos.of_uint];
    rewrite py_String; cbn [fold_left];
    vm_compute (10 * 0 + (Z.of_N (N_of_ascii _) - 48));
    apply (int_digits_acc u).
Qed.

Lemma digits_of_are_digits (u : Decimal.uint) :
  forallb is_digit (digits_of u) = true.
Proof.
  unfold digits_of.
  induction u as [|u IH|u IH|u IH|u IH|u IH|u IH|u IH|u IH|u IH|u IH];
    [reflexivity|..];
    cbn [NilEmpty.string_of_uint]; rewrite py_String; cbn [forallb];
    rewrite IH; reflexivity.
Qed.

Lemma str_of_uint_cases (u : Decimal.uint) :
  py (NilZero.string_of_uint u)
  = match u with Decimal.Nil => py "0" | _ => digits_of u end.
Proof. by destruct u. Qed.

(** For a number that is not negative, [str] gives one or more ASCII
    digits, and [int] reads the number back. *)
Lemma str_of_int_nonneg (z : Z) :
  0 <= z ->
  str_of_int z <> [] /\ forallb is_digit (str_of_int z) = true
  /\ int (str_of_int z) = z.
Proof.
  intros Hz. unfold str_of_int.
  pose proof (DecimalZ.of_to z) as Hback.
  destruct (Z.to_int z) as [u|u] eqn:Hu.
  2:{ destruct z; try discriminate. lia. }
  cbn [NilZero.string_of_int Z.of_int] in *. rewrite str_of_uint_cases.
  rewrite <- Hback, <- int_digits.
  pose proof (digits_of_are_digits u) as Hdig.
  destruct u; (split; [discriminate | by split]).
Qed.

(** The text of a negative number starts with [-]. *)
Lemma str_of_int_neg (z : Z) :
  z < 0 -> exists s, str_of_int z = chr "-" :: s.
Proof.
  intros Hz. unfold str_of_int. destruct z; try lia.
  cbn [Z.to_int NilZero.string_of_int]. rewrite py_String. eauto.
Qed.



(** ** Joining a folder and a file name *)








(** ** The state store and the creation of revisions *)

Section store_claims.
Context {C : Type} `{!Connection C}.

(** C9, as the code has it.  [save] touches no path but the temporary file
    and the state file.  When it succeeds the state file holds the new
    state and no temporary file is left.  When it fails the state file is
    as it was; but [save] deletes nothing: if the write fails, the
    temporary file stays with the part that was written, and if the rename
    fails, it stays with the whole text. *)
Theorem save_is_atomic_without_cleanup
    (e : Env) (m : Migrations.t) (w : World C) r m' w' :
  Migrations.save e (m, w) = (r, (m', w')) ->
  (forall p : str,
      p <> temp_of e m -> p <> Migrations.filename m ->
      files w' !! p = files w !! p)
  /\ match r with
     | Ok _ =>
         files w' !! Migrations.filename m = Some (state_json m)
         /\ files w' !! temp_of e m = None
     | Raise err =>
         files w' !! Migrations.filename m = files w !! Migrations.filename m
         /\ ((err = OSError (EvOpen (temp_of e m))
              /\ files w' !! temp_of e m = files w !! temp_of e m)
             \/ (exists n : nat,
                   err = OSError (EvWrite (temp_of e m) (state_json m))
                   /\ files w' !! temp_of e m = Some (take n (state_json m)))
             \/ (err = OSError (EvReplace (temp_of e m) (Migrations.filename m))
                 /\ files w' !! temp_of e m = Some (state_json m)))
     end.
Proof.
  intros Hs. apply save_spec in Hs. destruct Hs as (_ & _ & Hr).
  pose proof (temp_of_neq e m) as Hne.
  destruct r as [[]|err].
  - destruct Hr as (_ & -> & _). split.
    + intros p Hp1 Hp2. by rewrite lookup_insert_ne, lookup_delete_ne.
    + split; [apply lookup_insert_eq|].
      by rewrite lookup_insert_ne, lookup_delete_eq.
  - destruct Hr as [(_ & -> & -> & _)|[(n & _ & -> & -> & _)|(_ & -> & -> & _)]].
    + split; [done|]. split; [done|]. left. done.
    + split; [intros p Hp1 Hp2; by rewrite lookup_insert_ne|].
      split; [by rewrite lookup_insert_ne|].
      right; left. exists n. split; [done|]. apply lookup_insert_eq.
    + split; [intros p Hp1 Hp2; by rewrite lookup_insert_ne|].
      split; [by rewrite lookup_insert_ne|].
      right; right. split; [done|]. apply lookup_insert_eq.
Qed.

(** [create_revision] on a disk that lets its writes through. *)
Lemma create_revision_ok
    (e : Env) (m : Migrations.t) (w : World C) (reason kind : str) :
  can_write e (revision_path m reason kind) (revision_stub e m reason) ->
  can_save e m ->
  Migrations.create_revision e reason kind (m, w)
  = (Ok {| Revision.kind := kind;
           Revision.version := Migrations.version m + 1;
           Revision.description := reason;
           Revision.file := revision_path m reason kind |},
     (m, {| files := <[Migrations.filename m := state_json m]>
                       (delete (temp_of e m)
                          (<[revision_path m reason kind := revision_stub e m reason]>
                             (files w)));
            conn := conn w;
            trace := trace w
                     ++ [EvOpen (revision_path m reason kind);
                         EvWrite (revision_path m reason kind)
                           (revision_stub e m reason)]
                     ++ save_events e m |})).
Proof.
  intros [Ho Hw] Hcan.
  change (Migrations.create_revision e reason kind (m, w))
    with ((open_w e (revision_path m reason kind);;
           write e (revision_path m reason kind) (revision_stub e m reason);;
           Migrations.save e;;
           self ← get_self;
           mret {| Revision.kind := kind; Revision.description := reason;
                   Revision.version := Migrations.version self + 1;
                   Revision.file := revision_path m reason kind |}) (m, w)).
  unfold open_w, write, emit, get_files, put_files. unfold_monad. cbn.
  rewrite Ho. cbn. rewrite Hw. cbn. rewrite (save_ok e m _ Hcan). cbn.
  rewrite insert_insert_eq, <- !app_assoc. reflexivity.
Qed.

(** [create_revision] raises nothing but the errors of its writes, and
    leaves the engine as it was. *)
Lemma create_revision_raises
    (e : Env) (m : Migrations.t) (w : World C) (reason kind : str) err s' :
  Migrations.create_revision e reason kind (m, w) = (Raise err, s') ->
  fst s' = m /\ exists call, err = OSError call.
Proof.
  unfold Migrations.create_revision.
  unfold open_w, write, emit, get_files, put_files. unfold_monad. cbn.
  destruct (open_fails e _); cbn.
  { intros Hc. injection Hc as <- <-. eauto. }
  destruct (write_fails e _ _); cbn.
  { intros Hc. injection Hc as <- <-. eauto. }
  destruct (Migrations.save e _) as [[[]|err'] [m2 w2]] eqn:Hs; cbn;
    [discriminate|].
  intros Hc. injection Hc as <- <-. apply save_spec in Hs.
  destruct Hs as (-> & _ & [(_ & -> & _)|[(n & _ & -> & _)|(_ & -> & _)]]);
    eauto.
Qed.


(** C5, as the code has it.  [create_revision] makes no check of its own:
    on a disk that lets its writes through it returns a revision of version
    [version + 1], whether or not [is_next_revision_taken] holds, and so
    does a second call right after the first; the only errors it raises are
    those of its writes.  The check is made by the [migrate] command: when
    [is_next_revision_taken] holds, it echoes two lines and returns without
    creating anything. *)
Theorem create_revision_makes_no_check
    (e e2 : Env) (m : Migrations.t) (w : World C) (reason reason2 kind : str) :
  can_write e (revision_path m reason kind) (revision_stub e m reason) ->
  can_save e m ->
  can_write e2 (revision_path m reason2 kind) (revision_stub e2 m reason2) ->
  can_save e2 m ->
  (exists rev1 w1 rev2 w2,
      Migrations.create_revision e reason kind (m, w) = (Ok rev1, (m, w1))
      /\ Revision.version rev1 = Migrations.version m + 1
      /\ Migrations.create_revision e2 reason2 kind (m, w1) = (Ok rev2, (m, w2))
      /\ Revision.version rev2 = Migrations.version m + 1)
  /\ (forall reason' err s',
        Migrations.create_revision e reason' kind (m, w) = (Raise err, s') ->
        exists call, err = OSError call)
  /\ (Migrations.is_next_revision_taken m = true ->
      migrate e reason (m, w)
      = (Ok tt,
         (m, {| files := files w; conn := conn w;
                trace := trace w
                  ++ [EvEcho (py "an unapplied migration already exists for the next version, exiting");
                      EvEcho (style_bold (py "hint: apply pending migrations with the `upgrade` command"))] |}))).
Proof.
  intros Hw1 Hs1 Hw2 Hs2. split; [|split].
  - eexists _, _, _, _.
    split; [apply (create_revision_ok e m w reason kind Hw1 Hs1)|].
    split; [reflexivity|].
    split; [apply (create_revision_ok e2 m _ reason2 kind Hw2 Hs2)|].
    reflexivity.
  - intros reason' err s' Hc. by apply create_revision_raises in Hc as [_ ?].
  - intros Htaken. unfold migrate. unfold_monad. cbn. rewrite Htaken.
    unfold_calls. cbn. by rewrite <- app_assoc.
Qed.

End store_claims.

(** A disk that fills up during the write leaves a truncated temporary file
    behind. *)
Lemma save_leaves_partial_temp_file :
  fst (Migrations.save demo_env_disk_full start_applied)
  = Raise (OSError (EvWrite (temp_of demo_env_disk_full (fst start_applied))
                      (state_json (fst start_applied))))
  /\ files (snd (snd (Migrations.save demo_env_disk_full start_applied)))
       !! temp_of demo_env_disk_full (fst start_applied)
     = Some (take 7 (state_json (fst start_applied)))
  /\ take 7 (state_json (fst start_applied)) <> state_json (fst start_applied).
Proof. vm_compute. repeat split; discriminate. Qed.

Lemma save_is_atomic_without_cleanup_witness :
  files (snd (snd (Migrations.save demo_env_disk_full start_applied)))
    !! Migrations.filename (fst start_applied)
  = files (snd start_applied) !! Migrations.filename (fst start_applied).
Proof.
  assert (Hrun :
    Migrations.save demo_env_disk_full (fst start_applied, snd start_applied)
    = (Raise (OSError (EvWrite (temp_of demo_env_disk_full (fst start_applied))
                         (state_json (fst start_applied)))),
       (fst (snd (Migrations.save demo_env_disk_full start_applied)),
        snd (snd (Migrations.save demo_env_disk_full start_applied)))))
    by (vm_compute; reflexivity).
  destruct (save_is_atomic_without_cleanup _ _ _ _ _ _ Hrun) as [_ [Hkeep _]].
  exact Hkeep.
Defined.



(** Version 2 is already in the catalog and not applied; [create_revision]
    goes through all the same, and again when called a second time. *)
Lemma create_revision_ignores_pending :
  Migrations.is_next_revision_taken (fst start_staged) = true
  /\ match Migrations.create_revision demo_env (py "add tags") (py "V")
             start_staged with
     | (Ok rev, s) =>
         Revision.version rev = 2
         /\ match Migrations.create_revision demo_env (py "add tags") (py "V") s with
            | (Ok rev', _) => Revision.version rev' = 2
            | (Raise _, _) => False
            end
     | (Raise _, _) => False
     end.
Proof. vm_compute. repeat split. Qed.

Lemma create_revision_makes_no_check_witness :
  files (snd (snd (migrate demo_env (py "add tags")
                     (fst start_staged, snd start_staged))))
  = files (snd start_staged).
Proof.
  assert (Htaken : Migrations.is_next_revision_taken (fst start_staged) = true)
    by reflexivity.
  destruct (create_revision_makes_no_check demo_env demo_env
    (fst start_staged) (snd start_staged) (py "add tags") (py "add more")
    (py "V") ltac:(repeat split) ltac:(repeat split) ltac:(repeat split)
    ltac:(repeat split)) as (_ & _ & Hmig).
  rewrite (Hmig Htaken). reflexivity.
Defined.

(** ** The revision parser and the catalog scan *)

(** A match of [k+] splits the text into a run accepted by [k] and a rest
    on which the continuation succeeds. *)
Lemma many1_Some {R : Type} (ok : N -> bool) (k : str -> option R)
    (s : str) (r : R) :
  many1 ok k s = Some r ->
  exists p rest,
    s = p ++ rest /\ p <> [] /\ forallb ok p = true /\ k rest = Some r.
Proof.
  induction s as [|c s IH]; simpl; [discriminate|].
  destruct (ok c) eqn:Hc; [|discriminate].
  destruct (many1 ok k s) as [r'|] eqn:Hm.
  - intros [= ->]. destruct (IH eq_refl) as (p & rest & -> & _ & Hp & Hk).
    exists (c :: p), rest. simpl. rewrite Hc, Hp. done.
  - intros Hk. exists [c], s. simpl. rewrite Hc. done.
Qed.

(** [k+] is greedy: when no longer run leads to a match, the run [p] is
    the one taken. *)
Lemma many1_greedy {R : Type} (ok : N -> bool) (k : str -> option R)
    (p rest : str) (r : R) :
  p <> [] -> forallb ok p = true -> many1 ok k rest = None ->
  k rest = Some r ->
  many1 ok k (p ++ rest) = Some r.
Proof.
  intros Hne Hp Hrest Hk. induction p as [|c p IH]; [done|].
  simpl in Hp. apply andb_true_iff in Hp as [Hc Hp]. simpl. rewrite Hc.
  destruct p as [|c' p]; [simpl; by rewrite Hrest|].
  by rewrite IH.
Qed.

Lemma take_captured (p rest : str) :
  take (length (p ++ rest) - length rest) (p ++ rest) = p.
Proof.
  rewrite length_app.
  replace (length p + length rest - length rest)%nat with (length p) by lia.
  apply take_app_length.
Qed.

Lemma charset_ok_dot (s : str) :
  forallb (charset_ok Dot) s = true <-> LF ∉ s.
Proof.
  induction s as [|c s IH]; simpl.
  - split; [intros _; apply not_elem_of_nil | done].
  - rewrite andb_true_iff, IH, not_elem_of_cons, negb_true_iff, N.eqb_neq.
    split; intros [? ?]; split; congruence.
Qed.

Lemma charset_ok_lit (c : N) : charset_ok (Lit c) c = true.
Proof. apply N.eqb_refl. Qed.

Lemma take_captured_cons (c : N) (rest : str) :
  take (length (c :: rest) - length rest) (c :: rest) = [c].
Proof. apply (take_captured [c] rest). Qed.

(** The pattern matches a name of the form [V<digits>__<text>.sql] and
    captures its parts. *)
Lemma REVISION_FILE_matches (digits desc : str) :
  digits <> [] -> forallb is_digit digits = true ->
  desc <> [] -> LF ∉ desc ->
  re_match REVISION_FILE (py "V" ++ digits ++ py "__" ++ desc ++ py ".sql")
  = Some [("description"%string, desc); ("version"%string, digits);
          ("kind"%string, py "V")].
Proof.
  intros Hd1 Hd2 He1 He2.
  change (py "V" ++ digits ++ py "__" ++ desc ++ py ".sql")
    with (chr "V" :: (digits ++ chr "_" :: chr "_"
                      :: (desc ++ [chr "."; chr "s"; chr "q"; chr "l"]))).
  unfold re_match, REVISION_FILE. cbn [run].
  rewrite charset_ok_lit.
  apply many1_greedy; [exact Hd1 | exact Hd2 | reflexivity |].
  cbv beta iota. rewrite !charset_ok_lit.
  apply many1_greedy; [exact He1 | by apply charset_ok_dot | reflexivity |].
  cbv beta iota. rewrite !charset_ok_lit.
  change (charset_ok Dot (chr ".")) with true. cbv iota.
  by rewrite take_captured_cons, !take_captured.
Qed.

Lemma charset_ok_lit_inv (c x : N) : charset_ok (Lit c) x = true -> x = c.
Proof. apply N.eqb_eq. Qed.

(** The pattern matches nothing but the names of [matched_shape]. *)
Lemma REVISION_FILE_shape (name : str) (m : groups) :
  re_match REVISION_FILE name = Some m -> matched_shape name.
Proof.
  unfold re_match, REVISION_FILE. cbn [run].
  destruct name as [|x name]; [discriminate|].
  destruct (charset_ok (Lit (chr "V")) x) eqn:Hx; [|discriminate].
  apply charset_ok_lit_inv in Hx as ->.
  intros Hm. apply many1_Some in Hm as (digits & rest & -> & Hd1 & Hd2 & Hk).
  destruct rest as [|u1 rest]; [discriminate|].
  destruct (charset_ok (Lit (chr "_")) u1) eqn:Hu1; [|discriminate].
  apply charset_ok_lit_inv in Hu1 as ->.
  destruct rest as [|u2 rest]; [discriminate|].
  destruct (charset_ok (Lit (chr "_")) u2) eqn:Hu2; [|discriminate].
  apply charset_ok_lit_inv in Hu2 as ->.
  apply many1_Some in Hk as (desc & rest' & -> & He1 & He2 & Hk).
  destruct rest' as [|c rest']; [discriminate|].
  destruct (charset_ok Dot c) eqn:Hc; [|discriminate].
  destruct rest' as [|a1 rest']; [discriminate|].
  destruct (charset_ok (Lit (chr "s")) a1) eqn:Ha1; [|discriminate].
  apply charset_ok_lit_inv in Ha1 as ->.
  destruct rest' as [|a2 rest']; [discriminate|].
  destruct (charset_ok (Lit (chr "q")) a2) eqn:Ha2; [|discriminate].
  apply charset_ok_lit_inv in Ha2 as ->.
  destruct rest' as [|a3 rest']; [discriminate|].
  destruct (charset_ok (Lit (chr "l")) a3) eqn:Ha3; [|discriminate].
  apply charset_ok_lit_inv in Ha3 as ->.
  exists digits, desc, c, rest'.
  split; [reflexivity|]. split; [exact Hd1|]. split; [exact Hd2|].
  split; [exact He1|]. split; [by apply charset_ok_dot|].
  simpl in Hc. apply negb_true_iff, N.eqb_neq in Hc. exact Hc.
Qed.

(** The scan passes over a name the pattern does not match. *)
Lemma get_revisions_skips (root : str) (before after : list str) (name : str) :
  re_match REVISION_FILE name = None ->
  Migrations.get_revisions root (before ++ name :: after)
  = Migrations.get_revisions root (before ++ after).
Proof.
  intros Hnone. unfold Migrations.get_revisions, Migrations.glob_sql.
  rewrite !List.filter_app. simpl.
  destruct (endswith name (py ".sql")); [|reflexivity].
  rewrite !fold_left_app. simpl. by rewrite Hnone.
Qed.

(** C8, as the code has it.  The parser matches every name of the form
    [V<Version>__<Description>.sql] whose version is one or more ASCII digits
    and whose description is not empty and holds no line feed; the revision
    it returns has kind [V], the integer value of the digits as its version
    and the description verbatim.  The kind is the letter [V] and no other:
    a name that has not the shape [V], digits, two underscores, a text, one
    more character and [sql] is not matched, and the catalog scan passes
    over it without an error. *)
Theorem revision_file_parsing :
  (forall digits desc file : str,
      digits <> [] -> forallb is_digit digits = true ->
      desc <> [] -> LF ∉ desc ->
      option_map (fun m => Revision.from_match m file)
        (re_match REVISION_FILE
           (py "V" ++ digits ++ py "__" ++ desc ++ py ".sql"))
      = Some {| Revision.kind := py "V"; Revision.version := int digits;
                Revision.description := desc; Revision.file := file |})
  /\ (forall name : str,
        ~ matched_shape name ->
        re_match REVISION_FILE name = None
        /\ forall (root : str) (before after : list str),
             Migrations.get_revisions root (before ++ name :: after)
             = Migrations.get_revisions root (before ++ after)).
Proof.
  split.
  - intros digits desc file Hd1 Hd2 He1 He2.
    by rewrite REVISION_FILE_matches.
  - intros name Hshape.
    assert (Hnone : re_match REVISION_FILE name = None).
    { destruct (re_match REVISION_FILE name) as [m|] eqn:Hm; [|reflexivity].
      exfalso. apply Hshape. by apply REVISION_FILE_shape in Hm. }
    split; [exact Hnone|]. intros root before after.
    by apply get_revisions_skips.
Qed.

Lemma revision_file_parsing_witness :
  option_map (fun m => Revision.version (Revision.from_match m (py "f")))
    (re_match REVISION_FILE (py "V" ++ py "012" ++ py "__" ++ py "add_users"
                             ++ py ".sql")) = Some 12
  /\ Migrations.get_revisions (py "/repo") ([] ++ py "notes.sql" :: []) = [].
Proof.
  destruct revision_file_parsing as [Hparse Hskip]. split.
  - pose proof (Hparse (py "012") (py "add_users") (py "f")
      ltac:(discriminate) ltac:(reflexivity) ltac:(discriminate)
      ltac:(vm_compute; intros Hin; repeat (apply elem_of_cons in Hin as [Hin|Hin]; [discriminate|]); by apply elem_of_nil in Hin))
      as Hrev.
    destruct (re_match REVISION_FILE _) as [m|]; [|discriminate].
    cbn [option_map] in Hrev. injection Hrev as _ Hv _.
    cbn [option_map Revision.from_match Revision.version]. by rewrite Hv.
  - assert (Hno : ~ matched_shape (py "notes.sql")).
    { intros (digits & desc & c & rest & Heq & _). discriminate Heq. }
    destruct (Hskip _ Hno) as [_ Hget]. rewrite (Hget (py "/repo") [] []).
    reflexivity.
Defined.

(** A name whose kind is an upper-case letter other than [V] is not matched,
    and the scan leaves it out of the catalog. *)
Lemma kind_other_than_V_is_not_matched :
  re_match REVISION_FILE (py "A1__init.sql") = None
  /\ Migrations.get_revisions (py "/repo") [py "A1__init.sql"] = [].
Proof. vm_compute. split; reflexivity. Qed.

(** * Further properties of the engine *)

(** ** [display] *)

Section display_facts.
Context {C : Type} `{!Connection C}.

Lemma display_events_app (fs : gmap str str) (revs1 revs2 : list Revision.t) :
  display_events fs (revs1 ++ revs2)
  = display_events fs revs1 ++ display_events fs revs2.
Proof. unfold display_events. by rewrite flat_map_app. Qed.

Lemma display_loop_spec (ordered : list Revision.t) :
  forall (m : Migrations.t) (w : World C) r m' w',
  Migrations.display_loop ordered (m, w) = (r, (m', w')) ->
  let ps := List.filter (is_pending m) ordered in
  m' = m /\ files w' = files w /\ conn w' = conn w /\
  match r with
  | Ok _ =>
      Forall (fun r => is_Some (files w !! Revision.file r)) ps
      /\ trace w' = trace w ++ display_events (files w) ps
  | Raise err =>
      exists done r rest,
        ps = done ++ r :: rest
        /\ Forall (fun r => is_Some (files w !! Revision.file r)) done
        /\ files w !! Revision.file r = None
        /\ err = FileNotFoundError (Revision.file r)
        /\ trace w' = trace w ++ display_events (files w) done
                      ++ [EvReadText (Revision.file r)]
  end.
Proof.
  induction ordered as [|rv ordered IH]; intros m w r m' w' Hl.
  { injection Hl as <- <- <-. cbn. by rewrite app_nil_r. }
  simpl in Hl. unfold_calls. cbn in Hl. simpl.
  fold (is_pending m rv) in Hl |- *.
  destruct (is_pending m rv) eqn:Hp; cbn in Hl; [|by apply IH in Hl].
  destruct (files w !! Revision.file rv) as [sql|] eqn:Hf; cbn in Hl.
  2:{ injection Hl as <- <- <-. cbn. split; [done|]. split; [done|].
      split; [done|].
      exists [], rv, (List.filter (is_pending m) ordered). simpl. auto 10. }
  apply IH in Hl. cbn in Hl. destruct Hl as (-> & Hfs & Hc & Hr).
  split; [done|]. split; [done|]. split; [done|].
  assert (Hs : script (files w) rv = sql) by (unfold script; by rewrite Hf).
  destruct r as [[]|err].
  - destruct Hr as (Hall & Htr). simpl. rewrite Hs.
    split; [by constructor|]. rewrite Htr, <- !app_assoc. reflexivity.
  - destruct Hr as (done & r' & rest & Hps & Hall & Hn & -> & Htr).
    exists (rv :: done), r', rest. simpl. rewrite Hs, Hps.
    split; [done|]. split; [by constructor|]. split; [done|]. split; [done|].
    rewrite Htr, <- !app_assoc. done.
Qed.

(** X1.  [display] changes nothing: the engine, the files and the
    connection are as before.  It reads and echoes the scripts of the
    pending revisions in their ascending order; when a script is missing it
    stops there with [FileNotFoundError], having echoed the scripts before. *)
Theorem display_only_reads_and_echoes (m : Migrations.t) (w : World C) :
  let '(r, (m', w')) := Migrations.display (m, w) in
  m' = m /\ files w' = files w /\ conn w' = conn w
  /\ match r with
     | Ok _ =>
         Forall (fun r => is_Some (files w !! Revision.file r)) (pending m)
         /\ trace w' = trace w ++ display_events (files w) (pending m)
     | Raise err =>
         exists done r rest,
           pending m = done ++ r :: rest
           /\ Forall (fun r => is_Some (files w !! Revision.file r)) done
           /\ files w !! Revision.file r = None
           /\ err = FileNotFoundError (Revision.file r)
           /\ trace w' = trace w ++ display_events (files w) done
                         ++ [EvReadText (Revision.file r)]
     end.
Proof.
  destruct (Migrations.display (m, w)) as [r [m' w']] eqn:Hd.
  unfold Migrations.display in Hd. unfold_monad. cbn in Hd.
  by apply display_loop_spec in Hd.
Qed.

End display_facts.

(** ** The other ways [upgrade] can end *)

Section upgrade_outcomes.
Context {C : Type} `{!Connection C}.




(** [save] touches no path but its temporary file and the state file. *)
Lemma save_frame (e : Env) (m : Migrations.t) (w : World C) r m' w' :
  Migrations.save e (m, w) = (r, (m', w')) ->
  forall p : str,
    p <> temp_of e m -> p <> Migrations.filename m ->
    files w' !! p = files w !! p.
Proof.
  intros Hs p Hp1 Hp2. apply save_spec in Hs. destruct Hs as (_ & _ & Hr).
  destruct r as [[]|err].
  - destruct Hr as (_ & -> & _). by rewrite lookup_insert_ne, lookup_delete_ne.
  - destruct Hr as [(_ & _ & -> & _)|[(n & _ & _ & -> & _)|(_ & _ & -> & _)]];
      [done | by rewrite lookup_insert_ne | by rewrite lookup_insert_ne].
Qed.

(** X5.  However [upgrade] ends, it touches no path but its temporary file
    and the state file (script files are only read), it leaves the catalog
    and the paths of the engine alone, and [version] does not go down. *)
Theorem upgrade_frame (e : Env) (m : Migrations.t) (w : World C) :
  let '(_, (m', w')) := Migrations.upgrade e (m, w) in
  (forall p : str,
      p <> temp_of e m -> p <> Migrations.filename m ->
      files w' !! p = files w !! p)
  /\ Migrations.revisions m' = Migrations.revisions m
  /\ Migrations.filename m' = Migrations.filename m
  /\ Migrations.migrations_path m' = Migrations.migrations_path m
  /\ Migrations.root m' = Migrations.root m
  /\ Migrations.database_uri m' = Migrations.database_uri m
  /\ Migrations.version m <= Migrations.version m'.
Proof.
  rewrite upgrade_unfold.
  destruct (Migrations.upgrade_loop _ 0 (m, w)) as [[k1|err] [m1 w1]] eqn:Hl;
    apply upgrade_loop_spec in Hl; destruct Hl as (-> & Hfs & Hr).
  2:{ cbn. rewrite Hfs. repeat split; done. }
  destruct Hr as (-> & _). rewrite Z.add_0_l.
  destruct (Migrations.save e _) as [r2 [m2 w2]] eqn:Hs.
  assert (Hframe : forall p : str,
             p <> temp_of e m -> p <> Migrations.filename m ->
             files w2 !! p = files w !! p).
  { intros p Hp1 Hp2. rewrite <- Hfs.
    by apply (save_frame e _ _ _ _ _ Hs). }
  apply save_spec in Hs. destruct Hs as (-> & _ & _).
  assert (Hle : Migrations.version m
                <= Migrations.version m
                   + Z.of_nat (length (List.filter (is_pending m)
                                         (Migrations.ordered_revisions m))))
    by lia.
  destruct r2 as [[]|err]; [|cbn; repeat split; done].
  rewrite conn_commit_eq. cbn.
  destruct (commit (conn w2)); cbn; [|repeat split; done].
  rewrite conn_commit_eq. cbn.
  destruct (commit c); cbn; repeat split; done.
Qed.

End upgrade_outcomes.




(** ** The order of application, and an engine that is up to date *)



Section upgrade_order.
Context {C : Type} `{!Connection C}.




(** X7.  When no cataloged version is above [version] (an empty catalog
    included), an [upgrade] whose [save] and commits go through executes
    nothing and returns 0 with the engine unchanged; it still rewrites the
    state file and commits. *)
Theorem upgrade_up_to_date
    (e : Env) (m : Migrations.t) (w : World C) (c2 c3 : C) :
  Forall (fun r => Revision.version r <= Migrations.version m)
    (Dict.values (Migrations.revisions m)) ->
  can_save e m ->
  commit (conn w) = Some c2 -> commit c2 = Some c3 ->
  Migrations.upgrade e (m, w)
  = (Ok 0,
     (m, {| files := <[Migrations.filename m := state_json m]>
                       (delete (temp_of e m) (files w));
            conn := c3;
            trace := trace w ++ save_events e m ++ [EvCommit; EvCommit] |})).
Proof.
  intros Hall Hcan Hc2 Hc3.
  assert (Hpend : pending m = []).
  { apply filter_nil. intros r Hin. unfold is_pending. apply Z.ltb_ge.
    rewrite Forall_forall in Hall. apply Hall.
    apply list_elem_of_In in Hin. unfold Migrations.ordered_revisions in Hin.
    by rewrite sorted_perm in Hin. }
  pose proof (upgrade_ok e m w (conn w) c2 c3) as Hrun.
  cbv zeta in Hrun. rewrite Hpend in Hrun.
  change (Z.of_nat (length (@nil Revision.t))) with 0 in Hrun.
  rewrite (set_version_same m 0 eq_refl) in Hrun.
  apply Hrun; done.
Qed.

End upgrade_order.


Lemma upgrade_up_to_date_witness :
  fst (Migrations.upgrade demo_env (fst start_applied, snd start_applied))
  = Ok 0.
Proof.
  assert (Hall :
    Forall (fun r => Revision.version r <= Migrations.version (fst start_applied))
      (Dict.values (Migrations.revisions (fst start_applied)))).
  { constructor; [|constructor]. cbn. lia. }
  assert (Hcan : can_save demo_env (fst start_applied)) by (repeat split).
  assert (Hc :
    commit (conn (snd start_applied))
    = Some {| committed := []; uncommitted := [] |}) by reflexivity.
  assert (Hc' :
    commit {| committed := []; uncommitted := [] |}
    = Some {| committed := []; uncommitted := [] |}) by reflexivity.
  rewrite (upgrade_up_to_date _ _ _ _ _ Hall Hcan Hc Hc').
  reflexivity.
Defined.

(** ** Every way [create_revision] can end *)

Section create_revision_outcomes.
Context {C : Type} `{!Connection C}.

(** X8.  However [create_revision] ends, it leaves the engine as it was
    ([version] is not advanced), makes no call on the database connection,
    and touches no path but the new script, its temporary file and the state
    file.  When it fails, the state file is as before unless the script was
    written over it. *)
Theorem create_revision_frame
    (e : Env) (m : Migrations.t) (w : World C) (reason kind : str) :
  let '(r, (m', w')) := Migrations.create_revision e reason kind (m, w) in
  m' = m /\ conn w' = conn w
  /\ (exists calls,
        trace w' = trace w ++ calls
        /\ Forall (fun ev => is_connection_call ev = false) calls)
  /\ (forall p : str,
        p <> revision_path m reason kind -> p <> temp_of e m ->
        p <> Migrations.filename m ->
        files w' !! p = files w !! p)
  /\ match r with
     | Ok rev => Revision.version rev = Migrations.version m + 1
     | Raise _ =>
         revision_path m reason kind <> Migrations.filename m ->
         files w' !! Migrations.filename m = files w !! Migrations.filename m
     end.
Proof.
  change (Migrations.create_revision e reason kind (m, w))
    with ((open_w e (revision_path m reason kind);;
           write e (revision_path m reason kind) (revision_stub e m reason);;
           Migrations.save e;;
           self ← get_self;
           mret {| Revision.kind := kind; Revision.description := reason;
                   Revision.version := Migrations.version self + 1;
                   Revision.file := revision_path m reason kind |}) (m, w)).
  unfold open_w, write, emit, get_files, put_files. unfold_monad. cbn.
  destruct (open_fails e _); cbn.
  { split; [done|]. split; [done|].
    split; [eexists [_]; split; [reflexivity | by repeat constructor]|].
    done. }
  destruct (write_fails e _ _) as [n|]; cbn.
  { split; [done|]. split; [done|].
    split; [eexists [_; _]; rewrite <- app_assoc;
            split; [reflexivity | by repeat constructor]|].
    rewrite insert_insert_eq.
    split; [intros p Hp _ _; by rewrite lookup_insert_ne|].
    intros Hne. by rewrite lookup_insert_ne. }
  destruct (Migrations.save e _) as [r [m2 w2]] eqn:Hs.
  pose proof (save_frame e _ _ _ _ _ Hs) as Hframe. cbn in Hframe.
  apply save_spec in Hs. cbn in Hs. destruct Hs as (-> & Hc & Hr).
  pose proof (temp_of_neq e m) as Htemp.
  assert (Hother : forall p : str,
             p <> revision_path m reason kind -> p <> temp_of e m ->
             p <> Migrations.filename m ->
             files w2 !! p = files w !! p).
  { intros p Hp1 Hp2 Hp3. rewrite (Hframe p Hp2 Hp3), insert_insert_eq.
    by rewrite lookup_insert_ne. }
  destruct r as [[]|err]; cbn.
  - destruct Hr as (_ & _ & Htr). split; [done|]. split; [done|].
    split; [|done]. eexists (_ :: _ :: save_events e m).
    rewrite Htr, <- !app_assoc. split; [reflexivity | by repeat constructor].
  - split; [done|]. split; [done|].
    destruct Hr as [(_ & _ & Hfs & Htr)|[(n & _ & _ & Hfs & Htr)
                                         |(_ & _ & Hfs & Htr)]];
      rewrite Htr, <- !app_assoc.
    + split; [eexists [_; _; _]; split; [reflexivity | by repeat constructor]|].
      split; [done|]. intros Hne.
      by rewrite Hfs, insert_insert_eq, lookup_insert_ne.
    + split; [eexists [_; _; _; _];
              split; [reflexivity | by repeat constructor]|].
      split; [done|]. intros Hne.
      by rewrite Hfs, insert_insert_eq, !lookup_insert_ne.
    + split; [eexists (_ :: _ :: save_events e m);
              split; [reflexivity | by repeat constructor]|].
      split; [done|]. intros Hne.
      by rewrite Hfs, insert_insert_eq, !lookup_insert_ne.
Qed.

End create_revision_outcomes.

(** ** The catalog built by the scan *)

Section dict_facts.
Context {V : Type}.

Lemma dict_contains_spec (k : Z) (d : list (Z * V)) :
  Dict.contains k d = true <-> k ∈ map fst d.
Proof.
  unfold Dict.contains. induction d as [|[k' v'] d IH]; simpl.
  - split; [discriminate | intros Hin; by apply elem_of_nil in Hin].
  - rewrite orb_true_iff, IH, elem_of_cons, Z.eqb_eq. intuition congruence.
Qed.

Lemma dict_set_keys (k : Z) (v : V) (d : list (Z * V)) :
  map fst (Dict.set k v d)
  = if Dict.contains k d then map fst d else map fst d ++ [k].
Proof.
  unfold Dict.contains. induction d as [|[k' v'] d IH]; simpl; [reflexivity|].
  destruct (k' =? k); simpl; [reflexivity|]. rewrite IH.
  by destruct (existsb _ d).
Qed.

Lemma dict_set_NoDup (k : Z) (v : V) (d : list (Z * V)) :
  NoDup (map fst d) -> NoDup (map fst (Dict.set k v d)).
Proof.
  intros Hnd. rewrite dict_set_keys.
  destruct (Dict.contains k d) eqn:Hc; [assumption|].
  apply NoDup_app. split; [assumption|]. split; [|apply NoDup_singleton].
  intros x Hx Hk. apply list_elem_of_singleton in Hk as ->.
  apply dict_contains_spec in Hx. congruence.
Qed.

Lemma dict_set_elem (k : Z) (v : V) (d : list (Z * V)) :
  (k, v) ∈ Dict.set k v d.
Proof.
  induction d as [|[k' v'] d IH]; simpl; [by left|].
  destruct (Z.eqb_spec k' k) as [->|Hne]; [by left | by right].
Qed.

(** Setting a key keeps the entries of the other keys and nothing else. *)
Lemma dict_set_elem_inv (k k0 : Z) (v v0 : V) (d : list (Z * V)) :
  NoDup (map fst d) ->
  (k0, v0) ∈ Dict.set k v d ->
  (k0 = k /\ v0 = v) \/ (k0 <> k /\ (k0, v0) ∈ d).
Proof.
  induction d as [|[k' v'] d IH]; simpl; intros Hnd Hin.
  - apply list_elem_of_singleton in Hin. injection Hin as -> ->. by left.
  - apply NoDup_cons in Hnd as [Hk' Hnd].
    destruct (Z.eqb_spec k' k) as [->|Hne];
      apply elem_of_cons in Hin as [Heq|Hin].
    + injection Heq as -> ->. by left.
    + right. split; [|by right]. intros ->. apply Hk'.
      change k with (fst (k, v0)). apply list_elem_of_In, in_map.
      by apply list_elem_of_In.
    + injection Heq as -> ->. right. split; [done | by left].
    + destruct (IH Hnd Hin) as [?|[? ?]]; [by left|].
      right. split; [done | by right].
Qed.

(** With pairwise different keys, a key has one value. *)
Lemma dict_NoDup_functional (k : Z) (a b : V) (d : list (Z * V)) :
  NoDup (map fst d) -> (k, a) ∈ d -> (k, b) ∈ d -> a = b.
Proof.
  induction d as [|[k' v'] d IH]; simpl; intros Hnd Ha Hb.
  - by apply elem_of_nil in Ha.
  - apply NoDup_cons in Hnd as [Hk' Hnd].
    assert (Hkey : forall x : V, (k', x) ∈ d -> False).
    { intros x Hx. apply Hk'. change k' with (fst (k', x)).
      apply list_elem_of_In, in_map. by apply list_elem_of_In. }
    apply elem_of_cons in Ha as [Ha|Ha]; apply elem_of_cons in Hb as [Hb|Hb].
    + congruence.
    + injection Ha as -> ->. by destruct (Hkey b).
    + injection Hb as -> ->. by destruct (Hkey a).
    + by apply IH.
Qed.

End dict_facts.

Lemma ascending_NoDup_strict {A : Type} (key : A -> Z) (l : list A) :
  StronglySorted (fun a b => key a <= key b) l ->
  NoDup (map key l) ->
  StronglySorted (fun a b => key a < key b) l.
Proof.
  induction 1 as [|x l Hl IH Hx]; simpl; intros Hnd; [constructor|].
  apply NoDup_cons in Hnd as [Hin Hnd]. constructor; [by apply IH|].
  apply Forall_forall. intros y Hy. rewrite Forall_forall in Hx.
  specialize (Hx y Hy). destruct (decide (key x = key y)) as [Heq|]; [|lia].
  exfalso. apply Hin. rewrite Heq. apply list_elem_of_In, in_map.
  by apply list_elem_of_In.
Qed.

Section scan_facts.

Lemma glob_sql_elem (entries : list str) (name : str) :
  name ∈ Migrations.glob_sql entries
  <-> name ∈ entries /\ endswith name (py ".sql") = true.
Proof.
  unfold Migrations.glob_sql. by rewrite !list_elem_of_In, filter_In.
Qed.

Lemma get_revisions_scanned (root : str) (entries : list str) :
  scanned root entries (Migrations.get_revisions root entries).
Proof.
  unfold Migrations.get_revisions.
  assert (Hsub : forall name, name ∈ Migrations.glob_sql entries ->
                   name ∈ entries /\ endswith name (py ".sql") = true)
    by (intros name; apply glob_sql_elem).
  assert (Hinit : scanned root entries []).
  { split; [constructor|]. intros k r Hin. by apply elem_of_nil in Hin. }
  revert Hsub Hinit. generalize (@nil (Z * Revision.t)).
  induction (Migrations.glob_sql entries) as [|name names IH];
    intros d Hsub Hd; simpl; [exact Hd|].
  apply IH; [intros n Hn; apply Hsub; by right|].
  destruct (re_match REVISION_FILE name) as [m|] eqn:Hm; [|exact Hd].
  destruct Hd as [Hnd Hall]. split; [by apply dict_set_NoDup|].
  intros k r Hin. apply dict_set_elem_inv in Hin as [[-> ->]|[_ Hin]];
    [|by apply Hall|exact Hnd].
  split; [reflexivity|]. exists name, m.
  destruct (Hsub name ltac:(by left)) as [? ?]. done.
Qed.

Lemma scanned_versions (root : str) (entries : list str)
    (d : list (Z * Revision.t)) :
  scanned root entries d ->
  map Revision.version (Dict.values d) = map fst d.
Proof.
  intros [_ Hall]. unfold Dict.values. rewrite map_map.
  apply map_ext_in. intros [k r] Hin. simpl. symmetry.
  by apply Hall, list_elem_of_In.
Qed.

(** X9.  The catalog the scan builds never holds two revisions of one
    version: its keys are pairwise different and each revision is stored
    under its own version, so the ordered revisions are strictly ascending;
    and each revision comes from a scanned name that ends in [.sql] and that
    the pattern matches, with the path of that name as its file. *)
Theorem get_revisions_has_distinct_versions (root : str) (entries : list str) :
  let d := Migrations.get_revisions root entries in
  NoDup (map fst d)
  /\ NoDup (map Revision.version (Dict.values d))
  /\ strictly_ascending (sorted Revision.version (Dict.values d))
  /\ forall k r, (k, r) ∈ d ->
       k = Revision.version r
       /\ exists name m,
            name ∈ entries /\ endswith name (py ".sql") = true
            /\ re_match REVISION_FILE name = Some m
            /\ r = Revision.from_match m (scanned_path root name).
Proof.
  intros d. pose proof (get_revisions_scanned root entries) as Hs.
  fold d in Hs. pose proof (scanned_versions _ _ _ Hs) as Hv.
  destruct Hs as [Hnd Hall].
  split; [exact Hnd|]. split; [by rewrite Hv|]. split; [|exact Hall].
  apply ascending_NoDup_strict; [apply sorted_ascending|].
  rewrite (Permutation_map Revision.version (sorted_perm _ _)).
  by rewrite Hv.
Qed.

(** X10.  Two files of the same version: the one the scan meets last is
    the one in the catalog, and no other revision of that version is left
    (the earlier file is dropped without an error). *)
Theorem get_revisions_last_wins
    (root : str) (entries : list str) (name : str) (m : groups) :
  endswith name (py ".sql") = true ->
  re_match REVISION_FILE name = Some m ->
  let rev := Revision.from_match m (scanned_path root name) in
  let d := Migrations.get_revisions root (entries ++ [name]) in
  (Revision.version rev, rev) ∈ d
  /\ forall r : Revision.t,
       r ∈ Dict.values d -> Revision.version r = Revision.version rev ->
       r = rev.
Proof.
  intros Hend Hm rev d.
  assert (Hin : (Revision.version rev, rev) ∈ d).
  { unfold d, Migrations.get_revisions, Migrations.glob_sql.
    rewrite List.filter_app, fold_left_app. simpl. rewrite Hend. simpl.
    rewrite Hm. apply dict_set_elem. }
  split; [exact Hin|]. intros r Hr Hv.
  destruct (get_revisions_scanned root (entries ++ [name])) as [Hnd Hall].
  fold d in Hnd, Hall. unfold Dict.values in Hr.
  apply list_elem_of_In, in_map_iff in Hr as ([k r'] & Heq & Hr).
  simpl in Heq. subst r'. apply list_elem_of_In in Hr.
  destruct (Hall k r Hr) as [-> _]. rewrite Hv in Hr.
  exact (dict_NoDup_functional _ _ _ _ Hnd Hr Hin).
Qed.

End scan_facts.

Lemma get_revisions_last_wins_witness :
  (2, Revision.from_match
        [("description"%string, py "second"); ("version"%string, py "2");
         ("kind"%string, py "V")]
        (scanned_path (py "/repo") (py "V2__second.sql")))
  ∈ Migrations.get_revisions (py "/repo")
      ([py "V2__first.sql"; py "V1__init.sql"] ++ [py "V2__second.sql"]).
Proof.
  assert (Hend : endswith (py "V2__second.sql") (py ".sql") = true)
    by (vm_compute; reflexivity).
  assert (Hm : re_match REVISION_FILE (py "V2__second.sql")
               = Some [("description"%string, py "second");
                       ("version"%string, py "2"); ("kind"%string, py "V")])
    by (vm_compute; reflexivity).
  exact (proj1 (get_revisions_last_wins (py "/repo")
                  [py "V2__first.sql"; py "V1__init.sql"]
                  (py "V2__second.sql") _ Hend Hm)).
Defined.

(** ** A created revision and the next scan *)

Lemma sub_space_underscore_no_space (s : str) :
  Forall (fun c => isspace c = false) (sub_space_underscore s).
Proof.
  unfold sub_space_underscore. apply Forall_forall. intros c Hc.
  apply list_elem_of_In, in_map_iff in Hc as (c0 & <- & _).
  by destruct (isspace c0) eqn:Hs.
Qed.

Lemma sub_space_underscore_no_LF (s : str) : LF ∉ sub_space_underscore s.
Proof.
  intros Hin. pose proof (sub_space_underscore_no_space s) as Hall.
  rewrite Forall_forall in Hall. by specialize (Hall LF Hin).
Qed.

Lemma endswith_app (s suffix : str) : endswith (s ++ suffix) suffix = true.
Proof.
  unfold endswith. apply bool_decide_eq_true. rewrite length_app.
  replace (length s + length suffix - length suffix)%nat with (length s)
    by lia.
  apply drop_app_length.
Qed.

Lemma revision_filename_endswith (m : Migrations.t) (reason kind : str) :
  endswith (revision_filename m reason kind) (py ".sql") = true.
Proof.
  unfold revision_filename. rewrite !app_assoc. apply endswith_app.
Qed.

Lemma is_digit_not_space (c : N) : is_digit c = true -> isspace c = false.
Proof.
  unfold is_digit. intros Hd. apply andb_true_iff in Hd as [H0 H9].
  apply N.leb_le in H0, H9.
  change (chr "0") with 48%N in H0. change (chr "9") with 57%N in H9.
  unfold isspace.
  repeat match goal with
         | |- context [(?a <=? ?b)%N] =>
             destruct (N.leb_spec a b); try lia
         | |- context [(?a =? ?b)%N] =>
             destruct (N.eqb_spec a b); try lia
         end.
Qed.

(** The parser reads the name of a created revision back. *)
Lemma parse_created_name (m : Migrations.t) (reason file : str) :
  0 <= Migrations.version m + 1 -> reason <> [] ->
  exists g,
    re_match REVISION_FILE (revision_filename m reason (py "V")) = Some g
    /\ Revision.from_match g file
       = {| Revision.kind := py "V";
            Revision.version := Migrations.version m + 1;
            Revision.description := sub_space_underscore reason;
            Revision.file := file |}.
Proof.
  intros Hv Hreason.
  destruct (str_of_int_nonneg _ Hv) as (Hne & Hdig & Hint).
  eexists. split.
  - unfold revision_filename. fold (sub_space_underscore reason).
    apply REVISION_FILE_matches; try done.
    + unfold sub_space_underscore. by destruct reason.
    + apply sub_space_underscore_no_LF.
  - unfold Revision.from_match.
    replace (group _ "version")
      with (str_of_int (Migrations.version m + 1)) by reflexivity.
    rewrite Hint. reflexivity.
Qed.

(** X11.  The name [create_revision] gives the script of a reason that is
    not empty (at a version that is not below -1, with the kind [V]) holds
    no whitespace, and the parser reads it back: kind [V], the version
    [version + 1], and as description the reason with its whitespace
    replaced by underscores. *)
Theorem created_name_parses_back
    (m : Migrations.t) (reason file : str) :
  0 <= Migrations.version m + 1 -> reason <> [] ->
  Forall (fun c => isspace c = false) (revision_filename m reason (py "V"))
  /\ option_map (fun g => Revision.from_match g file)
       (re_match REVISION_FILE (revision_filename m reason (py "V")))
     = Some {| Revision.kind := py "V";
               Revision.version := Migrations.version m + 1;
               Revision.description := sub_space_underscore reason;
               Revision.file := file |}.
Proof.
  intros Hv Hreason.
  destruct (str_of_int_nonneg _ Hv) as (Hne & Hdig & Hint).
  split.
  - unfold revision_filename. rewrite !Forall_app.
    split; [by repeat constructor|]. split.
    { apply Forall_forall. intros c Hc. apply is_digit_not_space.
      apply forallb_forall with (x := c) in Hdig; [done|].
      by apply list_elem_of_In. }
    split; [by repeat constructor|].
    split; [apply (sub_space_underscore_no_space reason) | by repeat constructor].
  - destruct (parse_created_name m reason file Hv Hreason)
      as (g & -> & Hrev).
    cbn [option_map]. by rewrite Hrev.
Qed.

Lemma dict_set_contains_mono {V : Type} (k k' : Z) (v : V) (d : list (Z * V)) :
  Dict.contains k d = true -> Dict.contains k (Dict.set k' v d) = true.
Proof.
  rewrite !dict_contains_spec, dict_set_keys.
  destruct (Dict.contains k' d); [done|]. intros Hk.
  apply elem_of_app. by left.
Qed.

Lemma dict_set_contains {V : Type} (k : Z) (v : V) (d : list (Z * V)) :
  Dict.contains k (Dict.set k v d) = true.
Proof.
  apply dict_contains_spec. change k with (fst (k, v)) at 1.
  apply list_elem_of_In, in_map, list_elem_of_In, dict_set_elem.
Qed.

(** A name that the scan accepts is in the catalog under its version,
    wherever it stands in the directory. *)
Lemma get_revisions_contains
    (root : str) (before after : list str) (name : str) (g : groups) :
  endswith name (py ".sql") = true ->
  re_match REVISION_FILE name = Some g ->
  Dict.contains
    (Revision.version (Revision.from_match g (scanned_path root name)))
    (Migrations.get_revisions root (before ++ name :: after)) = true.
Proof.
  intros Hend Hg. unfold Migrations.get_revisions, Migrations.glob_sql.
  rewrite List.filter_app, fold_left_app. simpl. rewrite Hend. simpl.
  rewrite Hg.
  match goal with
  | |- context [fold_left ?f ?l (Dict.set ?k ?v ?d)] =>
      generalize (dict_set_contains k v d); generalize (Dict.set k v d)
  end.
  induction (List.filter _ after) as [|n names IH]; intros d Hd; simpl;
    [exact Hd|].
  apply IH. destruct (re_match REVISION_FILE n); [|exact Hd].
  by apply dict_set_contains_mono.
Qed.

Section next_migrate.
Context {C : Type} `{!Connection C}.

(** X12.  Once the script of a created revision (reason not empty, kind
    [V], version not below -1) is in the migrations directory, the engine a
    later command builds finds the next version taken, and [migrate] then
    echoes its two lines and returns without writing anything. *)
Theorem created_revision_blocks_next_migrate
    (e : Env) (m : Migrations.t) (w : World C) (reason reason2 : str)
    (before after : list str) :
  0 <= Migrations.version m + 1 -> reason <> [] ->
  let m2 :=
    with_catalog_of (before ++ revision_filename m reason (py "V") :: after) m in
  Migrations.is_next_revision_taken m2 = true
  /\ migrate e reason2 (m2, w)
     = (Ok tt,
        (m2, {| files := files w; conn := conn w;
                trace := trace w
                  ++ [EvEcho (py "an unapplied migration already exists for the next version, exiting");
                      EvEcho (style_bold (py "hint: apply pending migrations with the `upgrade` command"))] |})).
Proof.
  intros Hv Hreason m2.
  assert (Htaken : Migrations.is_next_revision_taken m2 = true).
  { destruct (parse_created_name m reason
                (scanned_path (Migrations.root m)
                   (revision_filename m reason (py "V"))) Hv Hreason)
      as (g & Hg & Hrev).
    unfold Migrations.is_next_revision_taken, m2. cbn.
    pose proof (get_revisions_contains (Migrations.root m) before after _ g
                  (revision_filename_endswith m reason (py "V")) Hg) as Hc.
    by rewrite Hrev in Hc. }
  split; [exact Htaken|]. clearbody m2.
  unfold migrate. unfold_monad. cbn. rewrite Htaken.
  unfold_calls. cbn. by rewrite <- app_assoc.
Qed.

End next_migrate.

Lemma digit_run_unique (a b r r' : str) :
  forallb is_digit a = true -> forallb is_digit b = true ->
  a ++ chr "_" :: r = b ++ chr "_" :: r' -> a = b /\ r = r'.
Proof.
  revert b. induction a as [|x a IH]; intros [|y b] Ha Hb Heq; simpl in *.
  - by injection Heq as ->.
  - injection Heq as <- _. by apply andb_true_iff in Hb as [? _].
  - injection Heq as -> _. by apply andb_true_iff in Ha as [? _].
  - injection Heq as -> Heq.
    apply andb_true_iff in Ha as [_ Ha]. apply andb_true_iff in Hb as [_ Hb].
    destruct (IH b Ha Hb Heq) as [-> ->]. done.
Qed.

(** X13.  With an empty reason the script is named [V<n>__.sql], which the
    pattern does not match (its description needs a character): the file
    [create_revision] writes is never cataloged by a later scan. *)
Theorem empty_reason_is_never_cataloged (m : Migrations.t) :
  re_match REVISION_FILE (revision_filename m [] (py "V")) = None
  /\ forall (root : str) (before after : list str),
       Migrations.get_revisions root
         (before ++ revision_filename m [] (py "V") :: after)
       = Migrations.get_revisions root (before ++ after).
Proof.
  assert (Hnone :
    re_match REVISION_FILE (revision_filename m [] (py "V")) = None).
  { destruct (re_match REVISION_FILE _) as [g|] eqn:Hg; [|reflexivity].
    exfalso. apply REVISION_FILE_shape in Hg.
    destruct Hg as (digits & desc & c & rest & Heq & Hd1 & Hd2 & He1 & _).
    unfold revision_filename in Heq.
    change (map _ []) with (@nil N) in Heq.
    change (py "V" ++ ?x) with (chr "V" :: x) in Heq.
    injection Heq as Heq.
    change (py "__" ++ ?x) with (chr "_" :: chr "_" :: x) in Heq.
    destruct (Z_lt_le_dec (Migrations.version m + 1) 0) as [Hneg|Hpos].
    - destruct (str_of_int_neg _ Hneg) as (s & Hs). rewrite Hs in Heq.
      destruct digits as [|d digits]; [done|]. injection Heq as <- _.
      by apply andb_true_iff in Hd2 as [? _].
    - destruct (str_of_int_nonneg _ Hpos) as (_ & Hdig & _).
      destruct (digit_run_unique _ _ _ _ Hdig Hd2 Heq) as [_ Hrest].
      injection Hrest as Hrest. apply (f_equal length) in Hrest.
      rewrite !length_app in Hrest. destruct desc; [done|].
      simpl in Hrest. lia. }
  split; [exact Hnone|]. intros root before after.
  by apply get_revisions_skips.
Qed.

Lemma created_name_parses_back_witness :
  option_map (fun g => Revision.version (Revision.from_match g (py "f")))
    (re_match REVISION_FILE
       (revision_filename (fst start_applied) (py "add tags") (py "V")))
  = Some 2.
Proof.
  destruct (created_name_parses_back (fst start_applied) (py "add tags")
              (py "f") ltac:(cbn; lia) ltac:(discriminate)) as [_ Hback].
  destruct (re_match REVISION_FILE _) as [g|]; [|discriminate].
  cbn [option_map] in *. injection Hback as _ Hv _.
  cbn [Revision.from_match Revision.version]. by rewrite Hv.
Defined.

Lemma created_revision_blocks_next_migrate_witness :
  Migrations.is_next_revision_taken
    (with_catalog_of
       ([py "V1__create_users.sql"]
        ++ revision_filename (fst start_applied) (py "add tags") (py "V") :: [])
       (fst start_applied)) = true.
Proof.
  exact (proj1 (created_revision_blocks_next_migrate demo_env
                  (fst start_applied) (snd start_applied)
                  (py "add tags") (py "more tags")
                  [py "V1__create_users.sql"] []
                  ltac:(cbn; lia) ltac:(discriminate))).
Defined.

(** ** [migrate] when the next version is free *)

Section migrate_creates.
Context {C : Type} `{!Connection C}.

(** X14.  When the next version is not taken and the writes go through,
    [migrate] creates the revision with the kind [V] (the stub is written,
    the state is saved) and then echoes [Created revision V<version + 1>];
    the engine is unchanged. *)
Theorem migrate_creates_and_reports
    (e : Env) (m : Migrations.t) (w : World C) (reason : str) :
  Migrations.is_next_revision_taken m = false ->
  can_write e (revision_path m reason (py "V")) (revision_stub e m reason) ->
  can_save e m ->
  migrate e reason (m, w)
  = (Ok tt,
     (m, {| files := <[Migrations.filename m := state_json m]>
                       (delete (temp_of e m)
                          (<[revision_path m reason (py "V")
                             := revision_stub e m reason]> (files w)));
            conn := conn w;
            trace := trace w
                     ++ [EvOpen (revision_path m reason (py "V"));
                         EvWrite (revision_path m reason (py "V"))
                           (revision_stub e m reason)]
                     ++ save_events e m
                     ++ [EvEcho (py "Created revision V"
                                 ++ str_of_int (Migrations.version m + 1))] |})).
Proof.
  intros Hfree Hw Hcan. unfold migrate. unfold_monad. cbn. rewrite Hfree.
  rewrite (create_revision_ok e m w reason (py "V") Hw Hcan).
  unfold_calls. cbn. by rewrite <- !app_assoc.
Qed.

(** X15.  [migrate] catches nothing: when the next version is not taken and
    [create_revision] raises, the same error leaves [migrate], in the state
    [create_revision] left; [migrate] makes no call of its own after it (it
    echoes nothing) and the engine is unchanged. *)
Theorem migrate_propagates_write_errors
    (e : Env) (m : Migrations.t) (w : World C) (reason : str)
    (err : error) (s' : Migrations.t * World C) :
  Migrations.is_next_revision_taken m = false ->
  Migrations.create_revision e reason (py "V") (m, w) = (Raise err, s') ->
  migrate e reason (m, w) = (Raise err, s') /\ fst s' = m.
Proof.
  intros Hfree Hc. split.
  - unfold migrate. unfold_monad. cbn. rewrite Hfree, Hc. reflexivity.
  - by apply create_revision_raises in Hc as [? _].
Qed.

End migrate_creates.

Lemma migrate_creates_and_reports_witness :
  migrate demo_env (py "add tags") (fst start_applied, snd start_applied)
  = (Ok tt,
     (fst start_applied,
      {| files :=
           <[py "migrations/revisions.json" := demo_state_text (py "1")]>
             (delete demo_temp
                (<[py "/repo/migrations/V2__add_tags.sql" :=
                     py "-- Revises: V1" ++ [LF]
                     ++ py "-- Creation Date: 2024-05-01 10:30:00.000000 UTC"
                     ++ [LF] ++ py "-- Reason: add tags" ++ [LF; LF]]>
                   (files (snd start_applied))));
         conn := conn (snd start_applied);
         trace :=
           [EvOpen (py "/repo/migrations/V2__add_tags.sql");
            EvWrite (py "/repo/migrations/V2__add_tags.sql")
              (py "-- Revises: V1" ++ [LF]
               ++ py "-- Creation Date: 2024-05-01 10:30:00.000000 UTC"
               ++ [LF] ++ py "-- Reason: add tags" ++ [LF; LF]);
            EvOpen demo_temp;
            EvWrite demo_temp (demo_state_text (py "1"));
            EvReplace demo_temp (py "migrations/revisions.json");
            EvEcho (py "Created revision V2")] |})).
Proof.
  assert (Hfree : Migrations.is_next_revision_taken (fst start_applied) = false)
    by reflexivity.
  assert (Hw : can_write demo_env
                 (revision_path (fst start_applied) (py "add tags") (py "V"))
                 (revision_stub demo_env (fst start_applied) (py "add tags")))
    by (repeat split).
  assert (Hcan : can_save demo_env (fst start_applied)) by (repeat split).
  rewrite (migrate_creates_and_reports demo_env (fst start_applied)
             (snd start_applied) (py "add tags") Hfree Hw Hcan).
  vm_compute. reflexivity.
Defined.

Lemma migrate_propagates_write_errors_witness :
  migrate demo_env_disk_full (py "add tags")
    (fst start_applied, snd start_applied)
  = (Raise (OSError
              (EvWrite (py "/repo/migrations/V2__add_tags.sql")
                 (py "-- Revises: V1" ++ [LF]
                  ++ py "-- Creation Date: 2024-05-01 10:30:00.000000 UTC"
                  ++ [LF] ++ py "-- Reason: add tags" ++ [LF; LF]))),
     (fst start_applied,
      {| files := <[py "/repo/migrations/V2__add_tags.sql" := py "-- Revi"]>
                    (files (snd start_applied));
         conn := conn (snd start_applied);
         trace :=
           [EvOpen (py "/repo/migrations/V2__add_tags.sql");
            EvWrite (py "/repo/migrations/V2__add_tags.sql")
              (py "-- Revises: V1" ++ [LF]
               ++ py "-- Creation Date: 2024-05-01 10:30:00.000000 UTC"
               ++ [LF] ++ py "-- Reason: add tags" ++ [LF; LF])] |})).
Proof.
  assert (Hfree : Migrations.is_next_revision_taken (fst start_applied) = false)
    by reflexivity.
  assert (Hc :
    Migrations.create_revision demo_env_disk_full (py "add tags") (py "V")
      (fst start_applied, snd start_applied)
    = (Raise (OSError
                (EvWrite (py "/repo/migrations/V2__add_tags.sql")
                   (py "-- Revises: V1" ++ [LF]
                    ++ py "-- Creation Date: 2024-05-01 10:30:00.000000 UTC"
                    ++ [LF] ++ py "-- Reason: add tags" ++ [LF; LF]))),
       (fst start_applied,
        {| files := <[py "/repo/migrations/V2__add_tags.sql" := py "-- Revi"]>
                      (files (snd start_applied));
           conn := conn (snd start_applied);
           trace :=
             [EvOpen (py "/repo/migrations/V2__add_tags.sql");
              EvWrite (py "/repo/migrations/V2__add_tags.sql")
                (py "-- Revises: V1" ++ [LF]
                 ++ py "-- Creation Date: 2024-05-01 10:30:00.000000 UTC"
                 ++ [LF] ++ py "-- Reason: add tags" ++ [LF; LF])] |})))
    by (vm_compute; reflexivity).
  exact (proj1 (migrate_propagates_write_errors demo_env_disk_full
                  (fst start_applied) (snd start_applied) (py "add tags")
                  _ _ Hfree Hc)).
Defined.
